(** * A shallow embedding of lib/Parse/Lexer.cpp

    The lexer holds a pointer [CurPtr] into an immutable, nul-terminated
    memory buffer and hands out one token per call of [Lex].  Pointers are
    modelled as integer offsets from [Buffer->getBufferStart()]; the buffer
    is a list of characters followed in memory by the terminating nul that
    [llvm::MemoryBuffer] guarantees.  Reading any other address is a fault.
    Diagnostics sent to the source manager are collected in a list.

    An [assert] is checked or skipped according to [NDEBUG].  The loops of
    the source run on fuel taken from the distance between the cursor and
    the end of the buffer; [Lex_fuel_suffices] shows that the fuel never
    runs out.  The character tests are those of the "C" locale. *)

From Stdlib Require Import ZArith List Bool Ascii String Lia.
Import ListNotations.
Open Scope Z_scope.

(** ** Tokens and diagnostics *)

Module tok.

Inductive TokenKind : Type :=
| unknown
| eof
| identifier
| dollarident
| numeric_constant
| kw___builtin_int32_type
| kw_oneof
| kw_struct
| kw_var
| kw_func
| kw_typealias
| l_paren
| r_paren
| l_brace
| r_brace
| l_square
| r_square
| period
| comma
| semi
| colon
| coloncolon
| equal
| arrow.

Definition eqb (a b : TokenKind) : bool :=
  match a, b with
  | unknown, unknown | eof, eof | identifier, identifier
  | dollarident, dollarident | numeric_constant, numeric_constant
  | kw___builtin_int32_type, kw___builtin_int32_type
  | kw_oneof, kw_oneof | kw_struct, kw_struct | kw_var, kw_var
  | kw_func, kw_func | kw_typealias, kw_typealias
  | l_paren, l_paren | r_paren, r_paren | l_brace, l_brace
  | r_brace, r_brace | l_square, l_square | r_square, r_square
  | period, period | comma, comma | semi, semi | colon, colon
  | coloncolon, coloncolon | equal, equal | arrow, arrow => true
  | _, _ => false
  end.

End tok.

(** [llvm::StringRef(Data, Length)]: a pointer and a length, no ownership. *)
Record StringRef : Type := mkStringRef { Data : Z; Length : Z }.

(** [Token]: what [Result.setToken(Kind, Text)] stores. *)
Record Token : Type := mkToken { Kind : tok.TokenKind; Text : StringRef }.

Inductive Severity : Type := warning | error.

(** One call of [SourceMgr.PrintMessage(Loc, Message, Type)]. *)
Record Diagnostic : Type :=
  mkDiagnostic { DiagKind : Severity; Loc : Z; Message : string }.

(** ** Faults and the lexer monad *)

Inductive Fault : Type :=
| AssertionFailed (msg : string)  (* an [assert] did not hold *)
| OutOfBounds (addr : Z)          (* a read outside the buffer and its nul *)
| OutOfFuel.                      (* a loop bound of the model was too small *)

Inductive Res (A : Type) : Type :=
| Ok (a : A)
| Err (f : Fault).
Arguments Ok {A} a.
Arguments Err {A} f.

(** The mutable part of a [Lexer] object together with the messages its
    source manager has printed so far. *)
Record Lexer : Type := mkLexer { CurPtr : Z; Diags : list Diagnostic }.

Definition M (A : Type) : Type := Lexer -> Res (A * Lexer).

Definition ret {A} (a : A) : M A := fun L => Ok (a, L).

Definition bind {A B} (m : M A) (k : A -> M B) : M B :=
  fun L => match m L with
           | Ok (a, L') => k a L'
           | Err f => Err f
           end.

Definition fail {A} (f : Fault) : M A := fun _ => Err f.

Declare Scope lexer_scope.
Delimit Scope lexer_scope with lexer.
Notation "x <- m ;; k" := (bind m (fun x => k))
  (at level 61, m at next level, right associativity) : lexer_scope.
Notation "m ;; k" := (bind m (fun _ => k))
  (at level 61, right associativity) : lexer_scope.
Open Scope lexer_scope.

Definition getCurPtr : M Z := fun L => Ok (CurPtr L, L).

Definition setCurPtr (p : Z) : M unit :=
  fun L => Ok (tt, mkLexer p (Diags L)).

Definition PrintMessage (sev : Severity) (loc : Z) (msg : string) : M unit :=
  fun L => Ok (tt, mkLexer (CurPtr L) (Diags L ++ [mkDiagnostic sev loc msg])).

(** ** Character classes of the C library, in the "C" locale *)

Definition zero : ascii := Ascii.zero.

Definition code (c : ascii) : N := N_of_ascii c.

Definition in_range (lo hi c : ascii) : bool :=
  (code lo <=? code c)%N && (code c <=? code hi)%N.

Definition isdigit (c : ascii) : bool := in_range "0" "9" c.

Definition isalpha (c : ascii) : bool :=
  in_range "A" "Z" c || in_range "a" "z" c.

Definition isalnum (c : ascii) : bool := isalpha c || isdigit c.

(** [char] promoted to [int]; [char] is signed on the targets of interest. *)
Definition to_int (c : ascii) : Z :=
  let n := Z.of_N (code c) in if n <? 128 then n else n - 256.

(** [strspn]'s membership test for an [accept] string. *)
Definition strchr_in (accept : string) (c : ascii) : bool :=
  existsb (Ascii.eqb c) (list_ascii_of_string accept).

(** ** The case labels of the [switch] in [Lexer::Lex] *)

Inductive DispatchCase : Type :=
| CaseDefault
| CaseWhitespace                       (* ' ', '\t', '\n', '\r' *)
| CaseNul                              (* 0 *)
| CaseSingle (K : tok.TokenKind)       (* ( ) { } [ ] . , ; *)
| CaseColon                            (* ':' *)
| CaseSlash                            (* '/' *)
| CasePunctuator                       (* = - + * % < > ! & | ^ *)
| CaseIdentifier                       (* A-Z a-z _ *)
| CaseDollar                           (* '$' *)
| CaseDigit.                           (* 0-9 *)

Definition dispatch (c : ascii) : DispatchCase :=
  match c with
  | " " | "009" | "010" | "013" => CaseWhitespace
  | "000" => CaseNul
  | "(" => CaseSingle tok.l_paren
  | ")" => CaseSingle tok.r_paren
  | "{" => CaseSingle tok.l_brace
  | "}" => CaseSingle tok.r_brace
  | "[" => CaseSingle tok.l_square
  | "]" => CaseSingle tok.r_square
  | "." => CaseSingle tok.period
  | "," => CaseSingle tok.comma
  | ";" => CaseSingle tok.semi
  | ":" => CaseColon
  | "/" => CaseSlash
  | "=" | "-" | "+" | "*" | "%" | "<" | ">" | "!" | "&" | "|" | "^" =>
      CasePunctuator
  | "A" | "B" | "C" | "D" | "E" | "F" | "G"
  | "H" | "I" | "J" | "K" | "L" | "M" | "N"
  | "O" | "P" | "Q" | "R" | "S" | "T" | "U"
  | "V" | "W" | "X" | "Y" | "Z"
  | "a" | "b" | "c" | "d" | "e" | "f" | "g"
  | "h" | "i" | "j" | "k" | "l" | "m" | "n"
  | "o" | "p" | "q" | "r" | "s" | "t" | "u"
  | "v" | "w" | "x" | "y" | "z"
  | "_" => CaseIdentifier
  | "$" => CaseDollar
  | "0" | "1" | "2" | "3" | "4"
  | "5" | "6" | "7" | "8" | "9" => CaseDigit
  | _ => CaseDefault
  end%char.

(** ** The lexer over a fixed buffer *)

Section LexerModel.

(** The characters of the memory buffer, without its terminating nul. *)
Variable Buffer : list ascii.

(** Whether the translation unit is compiled with [NDEBUG], which turns
    every [assert] into a no-op. *)
Variable NDEBUG : bool.

Definition getBufferStart : Z := 0.
Definition getBufferEnd : Z := Z.of_nat (List.length Buffer).

(** What is addressable: the buffer and the nul that terminates it. *)
Definition Memory : list ascii := Buffer ++ [zero].

Definition peek (p : Z) : option ascii :=
  if p <? 0 then None else nth_error Memory (Z.to_nat p).

(** [*p] *)
Definition load (p : Z) : M ascii :=
  fun L => match peek p with
           | Some c => Ok (c, L)
           | None => Err (OutOfBounds p)
           end.

(** [*CurPtr++] *)
Definition nextChar : M ascii :=
  p <- getCurPtr ;; c <- load p ;; setCurPtr (p + 1) ;; ret c.

Definition assert (cond : M bool) (msg : string) : M unit :=
  if NDEBUG then ret tt
  else b <- cond ;; if b then ret tt else fail (AssertionFailed msg).

(** The characters a [StringRef] denotes, read off the memory image. *)
Definition str (r : StringRef) : list ascii :=
  firstn (Z.to_nat (Length r)) (skipn (Z.to_nat (Data r)) Memory).

(** [memcmp(p, S, strlen(S)) == 0] *)
Fixpoint memeq (p : Z) (S : list ascii) : M bool :=
  match S with
  | [] => ret true
  | s :: S' =>
      c <- load p ;;
      if Ascii.eqb c s then memeq (p + 1) S' else ret false
  end.

(** [llvm::StringSwitch<T>]: the subject and the first value that matched. *)
Definition StringSwitch (T : Type) : Type := (StringRef * option T)%type.

Definition StringSwitch_new {T} (Str : StringRef) : M (StringSwitch T) :=
  ret (Str, None).

Definition Case {T} (S : string) (Value : T) (sw : StringSwitch T)
  : M (StringSwitch T) :=
  match snd sw with
  | Some _ => ret sw
  | None =>
      if Length (fst sw) =? Z.of_nat (String.length S) then
        same <- memeq (Data (fst sw)) (list_ascii_of_string S) ;;
        ret (fst sw, if same then Some Value else None)
      else ret sw
  end.

Definition Default {T} (Value : T) (sw : StringSwitch T) : M T :=
  ret (match snd sw with Some v => v | None => Value end).

Definition Warning (loc : Z) (msg : string) : M unit :=
  PrintMessage warning loc msg.

Definition Error (loc : Z) (msg : string) : M unit :=
  PrintMessage error loc msg.

Definition FormToken (K : tok.TokenKind) (TokStart : Z) : M Token :=
  p <- getCurPtr ;; ret (mkToken K (mkStringRef TokStart (p - TokStart))).

(** A bound on the iterations any loop can make from the current cursor:
    every iteration moves the cursor forward and none moves it past the
    terminating nul. *)
Definition remaining (L : Lexer) : nat :=
  S (Z.to_nat (getBufferEnd - CurPtr L)).

Definition bounded {A} (loop : nat -> M A) : M A :=
  fun L => loop (remaining L) L.

Definition isNewline (c : ascii) : bool :=
  Ascii.eqb c "010" || Ascii.eqb c "013".

Fixpoint SkipSlashSlashComment_loop (fuel : nat) : M unit :=
  match fuel with
  | O => fail OutOfFuel
  | S fuel' =>
      c <- nextChar ;;
      if isNewline c then ret tt
      else if Ascii.eqb c zero then
        p <- getCurPtr ;;
        if negb (p - 1 =? getBufferEnd) then
          Warning (p - 1) "nul character embedded in middle of file" ;;
          SkipSlashSlashComment_loop fuel'
        else
          setCurPtr (p - 1) ;;
          q <- getCurPtr ;;
          Warning (q - 1) "no newline at end of // comment"
      else SkipSlashSlashComment_loop fuel'
  end.

Definition SkipSlashSlashComment : M unit :=
  assert (p <- getCurPtr ;;
          c0 <- load p ;;
          if Ascii.eqb c0 "/" then
            c1 <- load (p - 1) ;; ret (Ascii.eqb c1 "/")
          else ret false)
         "Not a // comment" ;;
  bounded SkipSlashSlashComment_loop.

(** The loop [while (test( *CurPtr )) ++CurPtr;] shared by the scanners. *)
Fixpoint advanceWhile (test : ascii -> bool) (fuel : nat) : M unit :=
  match fuel with
  | O => fail OutOfFuel
  | S fuel' =>
      p <- getCurPtr ;;
      c <- load p ;;
      if test c then setCurPtr (p + 1) ;; advanceWhile test fuel'
      else ret tt
  end.

Definition isIdentBody (c : ascii) : bool :=
  isalnum c || Ascii.eqb c "_" || Ascii.eqb c "$".

Definition LexIdentifier : M Token :=
  p <- getCurPtr ;;
  let TokStart := p - 1 in
  assert (c <- load TokStart ;; ret (isalpha c || Ascii.eqb c "_"))
         "Unexpected start" ;;
  bounded (advanceWhile isIdentBody) ;;
  q <- getCurPtr ;;
  sw <- StringSwitch_new (mkStringRef TokStart (q - TokStart)) ;;
  sw <- Case "__builtin_int32_type" tok.kw___builtin_int32_type sw ;;
  sw <- Case "oneof" tok.kw_oneof sw ;;
  sw <- Case "struct" tok.kw_struct sw ;;
  sw <- Case "var" tok.kw_var sw ;;
  sw <- Case "func" tok.kw_func sw ;;
  sw <- Case "typealias" tok.kw_typealias sw ;;
  K <- Default tok.identifier sw ;;
  FormToken K TokStart.

Definition PunctuatorCharacters : string := "/=-+*%<>!&|^".

(** [strspn(s, accept)] *)
Fixpoint strspn (fuel : nat) (s : Z) (accept : string) : M Z :=
  match fuel with
  | O => fail OutOfFuel
  | S fuel' =>
      c <- load s ;;
      if strchr_in accept c then
        n <- strspn fuel' (s + 1) accept ;; ret (n + 1)
      else ret 0
  end.

Definition LexPunctuationIdentifier : M Token :=
  p <- getCurPtr ;;
  let TokStart := p - 1 in
  n <- bounded (fun fuel => strspn fuel p PunctuatorCharacters) ;;
  setCurPtr (p + n) ;;
  q <- getCurPtr ;;
  if q - TokStart =? 1 then
    c0 <- load TokStart ;;
    if Ascii.eqb c0 "=" then FormToken tok.equal TokStart
    else FormToken tok.identifier TokStart
  else if q - TokStart =? 2 then
    c0 <- load TokStart ;;
    c1 <- load (TokStart + 1) ;;
    if Z.lor (Z.shiftl (to_int c0) 8) (to_int c1)
       =? Z.lor (Z.shiftl (to_int "-") 8) (to_int ">")
    then FormToken tok.arrow TokStart
    else FormToken tok.identifier TokStart
  else FormToken tok.identifier TokStart.

Definition LexDollarIdent : M Token :=
  p <- getCurPtr ;;
  let TokStart := p - 1 in
  assert (c <- load TokStart ;; ret (Ascii.eqb c "$")) "*TokStart == '$'" ;;
  bounded (advanceWhile isIdentBody) ;;
  FormToken tok.dollarident TokStart.

Definition LexDigit : M Token :=
  p <- getCurPtr ;;
  let TokStart := p - 1 in
  assert (c <- load TokStart ;; ret (isdigit c)) "Unexpected start" ;;
  bounded (advanceWhile isdigit) ;;
  FormToken tok.numeric_constant TokStart.

(** The [switch] of [Lex] on the character [c] just read, for a token
    that starts at [TokStart]; [Restart] is what [goto Restart] runs. *)
Definition Lex_switch (Restart : M Token) (TokStart : Z) (c : ascii)
  : M Token :=
  match dispatch c with
  | CaseDefault =>
      p <- getCurPtr ;;
      Error (p - 1) "invalid character in source file" ;;
      FormToken tok.unknown TokStart
  | CaseWhitespace => Restart
  | CaseNul =>
      p <- getCurPtr ;;
      if negb (p - 1 =? getBufferEnd) then
        Warning (p - 1) "nul character embedded in middle of file" ;;
        Restart
      else FormToken tok.eof TokStart
  | CaseSingle K => FormToken K TokStart
  | CaseColon =>
      p <- getCurPtr ;;
      c1 <- load p ;;
      if negb (Ascii.eqb c1 ":") then FormToken tok.colon TokStart
      else setCurPtr (p + 1) ;; FormToken tok.coloncolon TokStart
  | CaseSlash =>
      p <- getCurPtr ;;
      c1 <- load p ;;
      if Ascii.eqb c1 "/" then SkipSlashSlashComment ;; Restart
      else LexPunctuationIdentifier
  | CasePunctuator => LexPunctuationIdentifier
  | CaseIdentifier => LexIdentifier
  | CaseDollar => LexDollarIdent
  | CaseDigit => LexDigit
  end.

(** The body of [Lex] from the label [Restart]; one unit of fuel per
    [goto Restart]. *)
Fixpoint Lex_Restart (fuel : nat) : M Token :=
  match fuel with
  | O => fail OutOfFuel
  | S fuel' =>
      TokStart <- getCurPtr ;;
      c <- nextChar ;;
      Lex_switch (Lex_Restart fuel') TokStart c
  end.

Definition Lex : M Token :=
  assert (p <- getCurPtr ;;
          ret ((getBufferStart <=? p) && (p <=? getBufferEnd)))
         "Cur Char Pointer out of range!" ;;
  bounded Lex_Restart.

(** [Lexer::Lexer]: the cursor starts at the beginning of the buffer. *)
Definition Lexer_new : Lexer := mkLexer getBufferStart [].

(** The consumption protocol of the lexer's client: ask for the next
    token until an end-of-input token comes back, at most [calls] times. *)
Fixpoint LexAll (calls : nat) : M (list Token) :=
  match calls with
  | O => fail OutOfFuel
  | S calls' =>
      T <- Lex ;;
      if tok.eqb (Kind T) tok.eof then ret [T]
      else Ts <- LexAll calls' ;; ret (T :: Ts)
  end.

End LexerModel.

(** ** What the lexer skips and what it returns, as text *)

(** The characters at the addresses [a], ..., [b - 1]. *)
Definition span (Buffer : list ascii) (a b : Z) : list ascii :=
  str Buffer (mkStringRef a (b - a)).

Definition noNewline (l : list ascii) : Prop :=
  Forall (fun c => isNewline c = false) l.

(** Text that produces no token: whitespace, nul characters and [//]
    comments, the last of which may run into the end of the buffer. *)
Inductive Trivia : list ascii -> Prop :=
| Trivia_nil : Trivia []
| Trivia_space c l :
    dispatch c = CaseWhitespace -> Trivia l -> Trivia (c :: l)
| Trivia_nul l : Trivia l -> Trivia (zero :: l)
| Trivia_comment body nl l :
    noNewline body -> isNewline nl = true -> Trivia l ->
    Trivia ("/" :: "/" :: body ++ nl :: l)%char
| Trivia_comment_eof body :
    noNewline body -> Trivia ("/" :: "/" :: body)%char.

(** The warnings for the nul characters of [l], which starts at [p]. *)
Fixpoint nulWarnings (p : Z) (l : list ascii) : list Diagnostic :=
  match l with
  | [] => []
  | c :: l' =>
      (if Ascii.eqb c zero
       then [mkDiagnostic warning p "nul character embedded in middle of file"]
       else [])
      ++ nulWarnings (p + 1) l'
  end.

(** The token stream read back against the buffer: for each token the text
    skipped before it and its own text, starting at address [from]. *)
Fixpoint transcript (Buffer : list ascii) (from : Z) (Ts : list Token)
  : list (list ascii * list ascii) :=
  match Ts with
  | [] => []
  | T :: Ts' =>
      (span Buffer from (Data (Text T)), str Buffer (Text T))
      :: transcript Buffer (Data (Text T) + Length (Text T)) Ts'
  end.

(** The address just past the last token of [Ts]. *)
Fixpoint resume (from : Z) (Ts : list Token) : Z :=
  match Ts with
  | [] => from
  | T :: Ts' => resume (Data (Text T) + Length (Text T)) Ts'
  end.

(** The reserved spellings and their kinds, as the specification lists them. *)
Definition reserved : list (string * tok.TokenKind) :=
  [ ("func", tok.kw_func); ("var", tok.kw_var); ("struct", tok.kw_struct);
    ("typealias", tok.kw_typealias); ("oneof", tok.kw_oneof);
    ("__builtin_int32_type", tok.kw___builtin_int32_type) ]%string.

(** A character that no case label of the dispatch names, in the words of
    the specification. *)
Definition unmatched (c : ascii) : bool :=
  negb (strchr_in " " c || Ascii.eqb c "009" || isNewline c
        || Ascii.eqb c zero
        || strchr_in "(){}[].,;:" c
        || strchr_in PunctuatorCharacters c
        || isalpha c || Ascii.eqb c "_" || Ascii.eqb c "$" || isdigit c).

(** What one call of [Lex] started in state [L] guarantees about the token
    [T] it returns and the state [L'] it leaves: only trivia is skipped,
    the cursor ends just past the token, and only the end-of-input token
    sits on the terminating nul. *)
Definition LexPost (Buffer : list ascii) (L : Lexer) (T : Token) (L' : Lexer)
  : Prop :=
  let s := Data (Text T) in
  let n := Length (Text T) in
  CurPtr L <= s /\
  Trivia (span Buffer (CurPtr L) s) /\
  CurPtr L' = s + n /\
  (Kind T = tok.eof -> s = getBufferEnd Buffer /\ n = 1) /\
  (Kind T <> tok.eof -> s < getBufferEnd Buffer /\ 0 < n /\
                        s + n <= getBufferEnd Buffer).

(** Whether the text [l] is the spelling [S]. *)
Definition matches (l : list ascii) (S : string) : bool :=
  String.eqb (string_of_list_ascii l) S.

(** The precondition that [Lex] asserts: the cursor is in the buffer or on
    its terminating nul. *)
Definition InRange (Buffer : list ascii) (L : Lexer) : Prop :=
  getBufferStart <= CurPtr L <= getBufferEnd Buffer.

Definition buf (s : string) : list ascii := list_ascii_of_string s.

(** ** Notions for the properties of the remaining code *)

(** The characters that [Lex] turns into a token of their own, with the
    kind of that token. *)
Definition punctuation : list (ascii * tok.TokenKind) :=
  [ ("(", tok.l_paren); (")", tok.r_paren); ("{", tok.l_brace);
    ("}", tok.r_brace); ("[", tok.l_square); ("]", tok.r_square);
    (".", tok.period); (",", tok.comma); (";", tok.semi) ]%char.

Definition isWarning (d : Diagnostic) : Prop := DiagKind d = warning.

(** An address at which the dispatch of [Lex] forms a token instead of
    restarting: no whitespace, no nul other than the terminating one, and
    not the first slash of a [//]. *)
Definition TokenStart (Buffer : list ascii) (s : Z) : Prop :=
  exists c,
    peek Buffer s = Some c /\
    dispatch c <> CaseWhitespace /\
    (c = zero -> s = getBufferEnd Buffer) /\
    (c = "/"%char -> peek Buffer (s + 1) <> Some "/"%char).

(** The outcome [r] of a run that started without diagnostics, replayed
    behind the diagnostics [ds]. *)
Definition frame {A} (ds : list Diagnostic) (r : Res (A * Lexer))
  : Res (A * Lexer) :=
  match r with
  | Ok (a, L') => Ok (a, mkLexer (CurPtr L') (ds ++ Diags L'))
  | Err f => Err f
  end.

(** A computation that neither reads nor drops the diagnostics reported
    before it. *)
Definition Framed {A} (m : M A) : Prop :=
  forall p ds, m (mkLexer p ds) = frame ds (m (mkLexer p [])).

(** Tokens that follow one another in the buffer from address [from] on,
    each of them non-empty and in front of the terminating nul. *)
Fixpoint InOrder (Buffer : list ascii) (from : Z) (Ts : list Token) : Prop :=
  match Ts with
  | [] => True
  | T :: Ts' =>
      from <= Data (Text T) /\
      0 < Length (Text T) /\
      Data (Text T) + Length (Text T) <= getBufferEnd Buffer /\
      InOrder Buffer (Data (Text T) + Length (Text T)) Ts'
  end.

(** The kind the scanners give to a token, read off its text alone. *)
Definition kindOfText (text : list ascii) : tok.TokenKind :=
  match text with
  | [] => tok.unknown
  | c :: _ =>
      match dispatch c with
      | CaseDefault | CaseWhitespace => tok.unknown
      | CaseNul => tok.eof
      | CaseSingle K => K
      | CaseColon => if matches text "::" then tok.coloncolon else tok.colon
      | CaseSlash | CasePunctuator =>
          if matches text "=" then tok.equal
          else if matches text "->" then tok.arrow
          else tok.identifier
      | CaseIdentifier =>
          if matches text "__builtin_int32_type"
          then tok.kw___builtin_int32_type
          else if matches text "oneof" then tok.kw_oneof
          else if matches text "struct" then tok.kw_struct
          else if matches text "var" then tok.kw_var
          else if matches text "func" then tok.kw_func
          else if matches text "typealias" then tok.kw_typealias
          else tok.identifier
      | CaseDollar => tok.dollarident
      | CaseDigit => tok.numeric_constant
      end
  end.

Definition isError (d : Diagnostic) : bool :=
  match DiagKind d with error => true | warning => false end.

(** * Properties *)

(** ** Running the monad *)

Lemma bind_Ok {A B} (m : M A) (k : A -> M B) L a L' :
  m L = Ok (a, L') -> bind m k L = k a L'.
Proof. intros H. unfold bind. now rewrite H. Qed.

Ltac mred :=
  unfold nextChar, FormToken, Warning, Error, bounded in *;
  unfold bind, ret, fail, getCurPtr, setCurPtr, load, PrintMessage in *;
  cbn [CurPtr Diags fst snd Kind Text Data Length] in *.

Lemma firstn_plus {A} (n m : nat) (l : list A) :
  firstn (n + m) l = firstn n l ++ firstn m (skipn n l).
Proof.
  revert l. induction n as [|n IH]; intros [|x l]; simpl;
    try reflexivity.
  - now rewrite firstn_nil.
  - now rewrite IH.
Qed.

Ltac range :=
  unfold InRange, getBufferStart in *;
  cbn [CurPtr Diags fst snd Kind Text Data Length] in *; lia.

Section MemoryFacts.

Variable Buffer : list ascii.

Local Abbreviation BufferEnd := (getBufferEnd Buffer).
Local Abbreviation peek := (peek Buffer).
Local Abbreviation span := (span Buffer).

Lemma Memory_length : List.length (Memory Buffer) = S (List.length Buffer).
Proof. unfold Memory. rewrite length_app. simpl. lia. Qed.

Lemma peek_Some_range p c : peek p = Some c -> 0 <= p <= BufferEnd.
Proof.
  unfold peek, getBufferEnd. destruct (Z.ltb_spec p 0); [discriminate|].
  intros Hc. assert (Hn : nth_error (Memory Buffer) (Z.to_nat p) <> None)
    by congruence.
  apply nth_error_Some in Hn. rewrite Memory_length in Hn. lia.
Qed.

Lemma peek_total p : 0 <= p <= BufferEnd -> exists c, peek p = Some c.
Proof.
  intros Hp. unfold peek. destruct (Z.ltb_spec p 0); [lia|].
  destruct (nth_error (Memory Buffer) (Z.to_nat p)) eqn:E; [eauto|].
  apply nth_error_None in E. rewrite Memory_length in E.
  unfold getBufferEnd in Hp. lia.
Qed.

Lemma peek_None p : p < 0 \/ BufferEnd < p -> peek p = None.
Proof.
  intros Hp. destruct (peek p) eqn:E; [|reflexivity].
  apply peek_Some_range in E. lia.
Qed.

Lemma peek_end : peek BufferEnd = Some zero.
Proof.
  unfold peek, getBufferEnd, Memory.
  destruct (Z.ltb_spec (Z.of_nat (List.length Buffer)) 0); [lia|].
  rewrite Nat2Z.id, nth_error_app2, Nat.sub_diag; [reflexivity|lia].
Qed.

Lemma peek_Buffer p :
  0 <= p < BufferEnd -> peek p = nth_error Buffer (Z.to_nat p).
Proof.
  intros Hp. unfold peek, Memory. destruct (Z.ltb_spec p 0); [lia|].
  apply nth_error_app1. unfold getBufferEnd in Hp. lia.
Qed.

Lemma span_empty a b : b <= a -> span a b = [].
Proof.
  intros H. unfold span, str. cbn [Data Length].
  replace (Z.to_nat (b - a)) with 0%nat by lia. reflexivity.
Qed.

Lemma span_cons a b c :
  peek a = Some c -> a < b -> span a b = c :: span (a + 1) b.
Proof.
  intros Hc Hab. pose proof (peek_Some_range _ _ Hc) as Ha.
  unfold span, str, peek in *. cbn [Data Length].
  destruct (Z.ltb_spec a 0); [lia|].
  replace (Z.to_nat (b - a)) with (S (Z.to_nat (b - (a + 1)))) by lia.
  replace (Z.to_nat (a + 1)) with (S (Z.to_nat a)) by lia.
  remember (Z.to_nat a) as n. clear - Hc.
  revert n Hc. induction (Memory Buffer) as [|x l IH]; intros [|n] Hc;
    simpl in *; try discriminate.
  - now inversion Hc.
  - rewrite (IH n Hc). destruct l; [destruct n; discriminate|reflexivity].
Qed.

Lemma span_app a b c :
  0 <= a <= b -> b <= c -> span a c = span a b ++ span b c.
Proof.
  intros Hab Hbc. unfold span, str. cbn [Data Length].
  replace (Z.to_nat (c - a)) with (Z.to_nat (b - a) + Z.to_nat (c - b))%nat
    by lia.
  rewrite firstn_plus, skipn_skipn.
  replace (Z.to_nat (b - a) + Z.to_nat a)%nat with (Z.to_nat b) by lia.
  reflexivity.
Qed.


Lemma span_Buffer : span 0 BufferEnd = Buffer.
Proof.
  unfold span, str, getBufferEnd, Memory. cbn [Data Length].
  rewrite Z.sub_0_r, Nat2Z.id. simpl.
  rewrite firstn_app, Nat.sub_diag, firstn_all. simpl. apply app_nil_r.
Qed.

Lemma span_length a b :
  0 <= a <= b -> b <= BufferEnd + 1 ->
  Z.of_nat (List.length (span a b)) = b - a.
Proof.
  intros Hab Hb. unfold span, str. cbn [Data Length].
  rewrite length_firstn, length_skipn, Memory_length.
  unfold getBufferEnd in Hb. lia.
Qed.

End MemoryFacts.

(** ** The loops and helpers of the scanners *)

Lemma matches_true l S : matches l S = true <-> l = list_ascii_of_string S.
Proof.
  unfold matches. rewrite String.eqb_eq. split; intros H.
  - now rewrite <- H, list_ascii_of_string_of_list_ascii.
  - now rewrite H, string_of_list_ascii_of_string.
Qed.

Lemma strchr_in_In accept c :
  strchr_in accept c = true <-> In c (list_ascii_of_string accept).
Proof.
  unfold strchr_in. rewrite existsb_exists. split.
  - intros (x & Hx & E). apply Ascii.eqb_eq in E. now subst.
  - intros H. exists c. split; [exact H|apply Ascii.eqb_refl].
Qed.

(** The dispatch of [Lex] agrees with the character classes the scanners
    assert and test. *)
Lemma dispatch_classes c :
  (dispatch c = CaseIdentifier <-> isalpha c || Ascii.eqb c "_" = true) /\
  (dispatch c = CaseDigit <-> isdigit c = true) /\
  (dispatch c = CaseDollar <-> Ascii.eqb c "$" = true) /\
  (dispatch c = CaseNul <-> Ascii.eqb c zero = true) /\
  (dispatch c = CaseSlash <-> Ascii.eqb c "/" = true) /\
  (dispatch c = CaseColon <-> Ascii.eqb c ":" = true) /\
  (dispatch c = CaseSlash \/ dispatch c = CasePunctuator
   <-> strchr_in PunctuatorCharacters c = true) /\
  (dispatch c = CaseDefault <-> unmatched c = true) /\
  (isNewline c = true -> dispatch c = CaseWhitespace) /\
  (forall K, dispatch c = CaseSingle K -> K <> tok.eof).
Proof.
  destruct c as [[] [] [] [] [] [] [] []]; vm_compute;
    repeat split; intros; try discriminate; try reflexivity; auto;
    try congruence;
    match goal with H : _ \/ _ |- _ => destruct H; discriminate end.
Qed.

(** The [switch] on [(TokStart[0] << 8) | TokStart[1]] singles out [->]. *)
Lemma arrow_switch c0 c1 :
  strchr_in PunctuatorCharacters c0 = true ->
  strchr_in PunctuatorCharacters c1 = true ->
  (Z.lor (Z.shiftl (to_int c0) 8) (to_int c1)
   =? Z.lor (Z.shiftl (to_int "-") 8) (to_int ">"))
  = matches [c0; c1] "->".
Proof.
  rewrite !strchr_in_In. cbn [list_ascii_of_string PunctuatorCharacters In].
  intros H0 H1.
  repeat (destruct H0 as [<-|H0]; [|]); try contradiction;
    repeat (destruct H1 as [<-|H1]; [|]); try contradiction; reflexivity.
Qed.

Lemma list_ascii_length (S : string) :
  List.length (list_ascii_of_string S) = String.length S.
Proof. induction S as [|c S IH]; simpl; congruence. Qed.

Section Scanners.

Variable Buffer : list ascii.
Variable NDEBUG : bool.

Local Abbreviation BufferEnd := (getBufferEnd Buffer).
Local Abbreviation peek := (peek Buffer).
Local Abbreviation span := (span Buffer).
Local Abbreviation InRange := (InRange Buffer).

Lemma peek_not_nul_lt p c :
  peek p = Some c -> c <> zero -> 0 <= p < BufferEnd.
Proof.
  intros Hc Hnz. pose proof (peek_Some_range _ _ _ Hc) as Hr.
  destruct (Z.eq_dec p BufferEnd) as [->|]; [|lia].
  rewrite peek_end in Hc. congruence.
Qed.

Lemma assert_true (cond : M bool) msg L :
  cond L = Ok (true, L) -> assert NDEBUG cond msg L = Ok (tt, L).
Proof.
  intros H. unfold assert. destruct NDEBUG; [reflexivity|].
  unfold bind. now rewrite H.
Qed.

Lemma advanceWhile_spec test fuel L :
  test zero = false ->
  InRange L ->
  (Z.to_nat (BufferEnd - CurPtr L) < fuel)%nat ->
  exists q,
    advanceWhile Buffer test fuel L = Ok (tt, mkLexer q (Diags L)) /\
    CurPtr L <= q <= BufferEnd /\
    Forall (fun c => test c = true) (span (CurPtr L) q) /\
    (exists c, peek q = Some c /\ test c = false).
Proof.
  intros Hz. revert L.
  induction fuel as [|fuel IH]; intros L Hr Hf; [lia|].
  destruct (peek_total Buffer (CurPtr L)) as [c Hc]; [range|].
  cbn [advanceWhile]. mred. rewrite Hc.
  destruct (test c) eqn:Ht.
  - assert (Hlt : 0 <= CurPtr L < BufferEnd).
    { apply (peek_not_nul_lt _ c Hc). intros ->. congruence. }
    destruct (IH (mkLexer (CurPtr L + 1) (Diags L)))
      as (q & Hq & Hb & Hall & Hstop); try range.
    cbn in Hq, Hb, Hall.
    exists q. split; [exact Hq|]. split; [lia|]. split; [|exact Hstop].
    rewrite (span_cons _ _ _ _ Hc) by lia. now constructor.
  - exists (CurPtr L). destruct L as [p ds]; cbn [CurPtr Diags] in *.
    split; [reflexivity|]. split; [range|]. split; [|eauto].
    rewrite span_empty by lia. constructor.
Qed.

Lemma strspn_spec accept fuel p L :
  strchr_in accept zero = false ->
  0 <= p <= BufferEnd ->
  (Z.to_nat (BufferEnd - p) < fuel)%nat ->
  exists n,
    strspn Buffer fuel p accept L = Ok (n, L) /\
    0 <= n /\ p + n <= BufferEnd /\
    Forall (fun c => strchr_in accept c = true) (span p (p + n)) /\
    (exists c, peek (p + n) = Some c /\ strchr_in accept c = false).
Proof.
  intros Hz. revert p.
  induction fuel as [|fuel IH]; intros p Hr Hf; [lia|].
  destruct (peek_total Buffer p Hr) as [c Hc].
  cbn [strspn]. mred. rewrite Hc.
  destruct (strchr_in accept c) eqn:Ht.
  - assert (Hlt : 0 <= p < BufferEnd).
    { apply (peek_not_nul_lt _ c Hc). intros ->. congruence. }
    destruct (IH (p + 1)) as (n & Hn & Hn0 & Hb & Hall & Hstop); try lia.
    rewrite Hn. exists (n + 1).
    replace (p + (n + 1)) with (p + 1 + n) by lia.
    split; [reflexivity|]. split; [lia|]. split; [lia|].
    split; [|exact Hstop].
    rewrite (span_cons _ _ _ _ Hc) by lia. now constructor.
  - exists 0. rewrite Z.add_0_r.
    split; [reflexivity|]. split; [lia|]. split; [lia|]. split; [|eauto].
    rewrite span_empty by lia. constructor.
Qed.

Lemma memeq_spec S p L :
  0 <= p -> p + Z.of_nat (List.length S) <= BufferEnd + 1 ->
  exists b,
    memeq Buffer p S L = Ok (b, L) /\
    (b = true <-> span p (p + Z.of_nat (List.length S)) = S).
Proof.
  revert p. induction S as [|s S IH]; intros p Hp Hlen.
  - exists true. cbn. rewrite span_empty by lia. tauto.
  - cbn [List.length] in *. rewrite Nat2Z.inj_succ in *.
    destruct (peek_total Buffer p) as [c Hc]; [lia|].
    cbn [memeq]. mred. rewrite Hc.
    rewrite (span_cons _ _ _ _ Hc) by lia.
    destruct (Ascii.eqb_spec c s) as [->|Hne].
    + destruct (IH (p + 1)) as (b & Hb & Hiff); try lia.
      exists b. split; [exact Hb|].
      replace (p + Z.succ (Z.of_nat (List.length S)))
        with (p + 1 + Z.of_nat (List.length S)) by lia.
      rewrite Hiff. split; intros H; [now f_equal|now injection H].
    + exists false. split; [reflexivity|].
      split; [discriminate|]. intros H. inversion H. contradiction.
Qed.

Lemma str_span r : str Buffer r = span (Data r) (Data r + Length r).
Proof.
  unfold span. destruct r as [a n]; cbn [Data Length].
  now replace (a + n - a) with n by lia.
Qed.

Lemma Case_spec {T} S (v : T) r o L :
  0 <= Data r -> 0 <= Length r -> Data r + Length r <= BufferEnd + 1 ->
  Case Buffer S v (r, o) L
  = Ok ((r, match o with
            | Some x => Some x
            | None => if matches (str Buffer r) S then Some v else None
            end), L).
Proof.
  intros Hd Hl Hb. unfold Case. cbn [fst snd].
  destruct o as [x|]; [reflexivity|].
  rewrite <- list_ascii_length.
  destruct (Z.eqb_spec (Length r)
              (Z.of_nat (List.length (list_ascii_of_string S)))) as [E|E].
  - destruct (memeq_spec (list_ascii_of_string S) (Data r) L)
      as (b & Hm & Hiff); try lia.
    mred. rewrite Hm. rewrite <- E, <- str_span in Hiff.
    destruct b, (matches (str Buffer r) S) eqn:Em; try reflexivity.
    + apply proj1 in Hiff. specialize (Hiff eq_refl).
      apply matches_true in Hiff. congruence.
    + apply matches_true in Em. apply Hiff in Em. discriminate.
  - destruct (matches (str Buffer r) S) eqn:Em; [|reflexivity].
    apply matches_true in Em. exfalso. apply E.
    rewrite <- Em, str_span. rewrite span_length; lia.
Qed.

Lemma isIdentBody_nul : isIdentBody zero = false.
Proof. reflexivity. Qed.

Lemma bounded_advanceWhile test L :
  test zero = false -> InRange L ->
  exists q,
    bounded Buffer (advanceWhile Buffer test) L
    = Ok (tt, mkLexer q (Diags L)) /\
    CurPtr L <= q <= BufferEnd /\
    Forall (fun c => test c = true) (span (CurPtr L) q) /\
    (exists c, peek q = Some c /\ test c = false).
Proof.
  intros Hz Hr. unfold bounded, remaining.
  apply advanceWhile_spec; [exact Hz|exact Hr|lia].
Qed.

(** What the chain of [Case]s in [LexIdentifier] selects for a text. *)
Lemma LexIdentifier_spec L c :
  1 <= CurPtr L <= BufferEnd ->
  peek (CurPtr L - 1) = Some c ->
  dispatch c = CaseIdentifier ->
  exists q K,
    LexIdentifier Buffer NDEBUG L
    = Ok (mkToken K (mkStringRef (CurPtr L - 1) (q - (CurPtr L - 1))),
          mkLexer q (Diags L)) /\
    CurPtr L <= q <= BufferEnd /\
    Forall (fun c => isIdentBody c = true) (span (CurPtr L) q) /\
    (exists c', peek q = Some c' /\ isIdentBody c' = false) /\
    K = (let text := span (CurPtr L - 1) q in
         if matches text "__builtin_int32_type"
         then tok.kw___builtin_int32_type
         else if matches text "oneof" then tok.kw_oneof
         else if matches text "struct" then tok.kw_struct
         else if matches text "var" then tok.kw_var
         else if matches text "func" then tok.kw_func
         else if matches text "typealias" then tok.kw_typealias
         else tok.identifier).
Proof.
  intros Hr Hc Hd. apply dispatch_classes in Hd.
  destruct (bounded_advanceWhile isIdentBody L isIdentBody_nul)
    as (q & Hq & Hb & Hall & Hstop); [range|].
  unfold LexIdentifier.
  rewrite (bind_Ok getCurPtr _ L (CurPtr L) L) by reflexivity.
  erewrite bind_Ok; cycle 1.
  { apply assert_true. unfold bind, load. rewrite Hc. unfold ret.
    now rewrite Hd. }
  erewrite bind_Ok by exact Hq.
  set (r := mkStringRef (CurPtr L - 1) (q - (CurPtr L - 1))).
  assert (Hr0 : 0 <= Data r) by (subst r; range).
  assert (Hr1 : 0 <= Length r) by (subst r; range).
  assert (Hr2 : Data r + Length r <= BufferEnd + 1) by (subst r; range).
  assert (Hs : str Buffer r = span (CurPtr L - 1) q) by reflexivity.
  unfold bind at 1. unfold getCurPtr at 1. cbn [CurPtr].
  unfold bind at 1. unfold StringSwitch_new, ret at 1. fold r.
  do 6 (erewrite bind_Ok by (apply Case_spec; assumption)).
  unfold bind, Default, ret, FormToken, getCurPtr. cbn [CurPtr snd].
  rewrite Hs. fold r.
  exists q. eexists. split; [reflexivity|].
  split; [exact Hb|]. split; [exact Hall|]. split; [exact Hstop|].
  cbv zeta.
  repeat match goal with
         | |- context [matches ?t ?S] => destruct (matches t S)
         end; reflexivity.
Qed.

Lemma LexDollarIdent_spec L :
  1 <= CurPtr L <= BufferEnd ->
  peek (CurPtr L - 1) = Some "$"%char ->
  exists q,
    LexDollarIdent Buffer NDEBUG L
    = Ok (mkToken tok.dollarident
            (mkStringRef (CurPtr L - 1) (q - (CurPtr L - 1))),
          mkLexer q (Diags L)) /\
    CurPtr L <= q <= BufferEnd /\
    Forall (fun c => isIdentBody c = true) (span (CurPtr L) q) /\
    (exists c', peek q = Some c' /\ isIdentBody c' = false).
Proof.
  intros Hr Hc.
  destruct (bounded_advanceWhile isIdentBody L isIdentBody_nul)
    as (q & Hq & Hb & Hall & Hstop); [range|].
  unfold LexDollarIdent.
  rewrite (bind_Ok getCurPtr _ L (CurPtr L) L) by reflexivity.
  erewrite bind_Ok; cycle 1.
  { apply assert_true. unfold bind, load. now rewrite Hc. }
  erewrite bind_Ok by exact Hq.
  exists q. split; [reflexivity|]. auto.
Qed.

Lemma LexDigit_spec L c :
  1 <= CurPtr L <= BufferEnd ->
  peek (CurPtr L - 1) = Some c ->
  dispatch c = CaseDigit ->
  exists q,
    LexDigit Buffer NDEBUG L
    = Ok (mkToken tok.numeric_constant
            (mkStringRef (CurPtr L - 1) (q - (CurPtr L - 1))),
          mkLexer q (Diags L)) /\
    CurPtr L <= q <= BufferEnd /\
    Forall (fun c => isdigit c = true) (span (CurPtr L) q) /\
    (exists c', peek q = Some c' /\ isdigit c' = false).
Proof.
  intros Hr Hc Hd. apply dispatch_classes in Hd.
  destruct (bounded_advanceWhile isdigit L eq_refl)
    as (q & Hq & Hb & Hall & Hstop); [range|].
  unfold LexDigit.
  rewrite (bind_Ok getCurPtr _ L (CurPtr L) L) by reflexivity.
  erewrite bind_Ok; cycle 1.
  { apply assert_true. unfold bind, load. rewrite Hc. unfold ret.
    now rewrite Hd. }
  erewrite bind_Ok by exact Hq.
  exists q. split; [reflexivity|]. auto.
Qed.

Lemma LexPunctuationIdentifier_spec L c :
  1 <= CurPtr L <= BufferEnd ->
  peek (CurPtr L - 1) = Some c ->
  strchr_in PunctuatorCharacters c = true ->
  exists q K,
    LexPunctuationIdentifier Buffer L
    = Ok (mkToken K (mkStringRef (CurPtr L - 1) (q - (CurPtr L - 1))),
          mkLexer q (Diags L)) /\
    CurPtr L <= q <= BufferEnd /\
    Forall (fun c => strchr_in PunctuatorCharacters c = true)
           (span (CurPtr L - 1) q) /\
    (exists c', peek q = Some c' /\
                strchr_in PunctuatorCharacters c' = false) /\
    K = (let text := span (CurPtr L - 1) q in
         if matches text "=" then tok.equal
         else if matches text "->" then tok.arrow
         else tok.identifier).
Proof.
  intros Hr Hc Hp.
  destruct (strspn_spec PunctuatorCharacters (remaining Buffer L)
              (CurPtr L) L eq_refl)
    as (n & Hn & Hn0 & Hb & Hall & Hstop);
    [range|unfold remaining; lia|].
  unfold LexPunctuationIdentifier.
  rewrite (bind_Ok getCurPtr _ L (CurPtr L) L) by reflexivity.
  erewrite bind_Ok by (unfold bounded; exact Hn).
  unfold bind at 1. unfold setCurPtr at 1.
  unfold bind at 1. unfold getCurPtr at 1. cbn [CurPtr Diags].
  set (p := CurPtr L) in *. set (q := p + n) in *.
  assert (Hspan : span (p - 1) q = c :: span p q).
  { rewrite (span_cons _ _ _ _ Hc) by lia. f_equal. f_equal. lia. }
  exists q.
  destruct (Z.eqb_spec (q - (p - 1)) 1) as [E1|E1];
    [|destruct (Z.eqb_spec (q - (p - 1)) 2) as [E2|E2]].
  - assert (q = p) by lia.
    unfold bind, load. rewrite Hc.
    rewrite Hspan, (span_empty _ p q) by lia.
    exists (if matches [c] "=" then tok.equal else tok.identifier).
    split.
    { unfold matches. cbn [string_of_list_ascii].
      unfold String.eqb. fold String.eqb.
      destruct (Ascii.eqb c "="); reflexivity. }
    split; [lia|]. split; [now constructor|]. split; [exact Hstop|].
    cbv zeta. unfold matches. cbn [string_of_list_ascii].
    unfold String.eqb. destruct (Ascii.eqb c "="), (Ascii.eqb c "-");
      reflexivity.
  - assert (Hq : q = p + 1) by lia.
    destruct (peek_total Buffer p) as [c1 Hc1]; [lia|].
    assert (Hs1 : span p q = [c1]).
    { rewrite (span_cons _ _ _ _ Hc1) by lia.
      now rewrite span_empty by lia. }
    assert (Hp1 : strchr_in PunctuatorCharacters c1 = true).
    { rewrite Hs1 in Hall. now inversion Hall. }
    unfold bind, load. rewrite Hc.
    replace (p - 1 + 1) with p by lia. rewrite Hc1.
    rewrite (arrow_switch c c1 Hp Hp1), Hspan, Hs1.
    exists (if matches [c; c1] "->" then tok.arrow else tok.identifier).
    split; [destruct (matches [c; c1] "->"); reflexivity|].
    split; [lia|]. split; [constructor; [exact Hp|now rewrite <- Hs1]|].
    split; [exact Hstop|].
    cbv zeta. replace (matches [c; c1] "=") with false; [reflexivity|].
    unfold matches. cbn [string_of_list_ascii]. unfold String.eqb.
    destruct (Ascii.eqb c "="); reflexivity.
  - exists tok.identifier. split; [reflexivity|].
    split; [lia|]. split; [rewrite Hspan; now constructor|].
    split; [exact Hstop|].
    cbv zeta.
    assert (Hlen : Z.of_nat (List.length (span (p - 1) q)) = q - (p - 1))
      by (apply span_length; lia).
    destruct (matches (span (p - 1) q) "=") eqn:M1.
    { apply matches_true in M1. rewrite M1 in Hlen. cbn in Hlen. lia. }
    destruct (matches (span (p - 1) q) "->") eqn:M2; [|reflexivity].
    apply matches_true in M2. rewrite M2 in Hlen. cbn in Hlen. lia.
Qed.

End Scanners.

(** ** Skipping a [//] comment *)

Section Comments.

Variable Buffer : list ascii.
Variable NDEBUG : bool.

Local Abbreviation BufferEnd := (getBufferEnd Buffer).
Local Abbreviation peek := (peek Buffer).
Local Abbreviation span := (span Buffer).
Local Abbreviation InRange := (InRange Buffer).

Lemma isNewline_not_nul c : isNewline c = true -> c <> zero.
Proof. intros H ->. discriminate. Qed.

Lemma SkipSlashSlashComment_loop_spec fuel L :
  InRange L ->
  (Z.to_nat (BufferEnd - CurPtr L) < fuel)%nat ->
  (exists q body nl,
      CurPtr L < q <= BufferEnd /\
      span (CurPtr L) q = body ++ [nl] /\
      noNewline body /\ isNewline nl = true /\
      SkipSlashSlashComment_loop Buffer fuel L
      = Ok (tt, mkLexer q (Diags L ++ nulWarnings (CurPtr L) body)))
  \/ (noNewline (span (CurPtr L) BufferEnd) /\
      SkipSlashSlashComment_loop Buffer fuel L
      = Ok (tt, mkLexer BufferEnd
                  (Diags L
                   ++ nulWarnings (CurPtr L) (span (CurPtr L) BufferEnd)
                   ++ [mkDiagnostic warning (BufferEnd - 1)
                         "no newline at end of // comment"]))).
Proof.
  revert L. induction fuel as [|fuel IH]; intros L Hr Hf; [lia|].
  destruct (peek_total Buffer (CurPtr L)) as [c Hc]; [range|].
  cbn [SkipSlashSlashComment_loop]. mred. rewrite Hc.
  destruct (isNewline c) eqn:Hnl.
  - left. exists (CurPtr L + 1), [], c.
    pose proof (peek_not_nul_lt _ _ _ Hc (isNewline_not_nul _ Hnl)).
    split; [lia|]. split.
    { rewrite (span_cons _ _ _ _ Hc) by lia. now rewrite span_empty by lia. }
    split; [constructor|]. split; [exact Hnl|].
    cbn [nulWarnings]. now rewrite app_nil_r.
  - destruct (Ascii.eqb_spec c zero) as [->|Hnz].
    + cbn [CurPtr Diags].
      replace (CurPtr L + 1 - 1) with (CurPtr L) by lia.
      destruct (Z.eqb_spec (CurPtr L) BufferEnd) as [E|E]; cbn [negb].
      * right. rewrite E, span_empty by lia.
        split; [constructor|]. reflexivity.
      * destruct (IH (mkLexer (CurPtr L + 1)
                        (Diags L ++ [mkDiagnostic warning (CurPtr L)
                           "nul character embedded in middle of file"])))
          as [(q & body & nl & Hq & Hs & Hb & Hn & Hrun)|(Hb & Hrun)];
          try range; cbn [CurPtr Diags] in *.
        -- left. exists q, (zero :: body), nl.
           split; [lia|]. split.
           { rewrite (span_cons _ _ _ _ Hc) by lia. now rewrite Hs. }
           split; [constructor; [reflexivity|exact Hb]|].
           split; [exact Hn|].
           rewrite Hrun. cbn [nulWarnings]. rewrite Ascii.eqb_refl.
           now rewrite <- app_assoc.
        -- right. assert (CurPtr L < BufferEnd) by range.
           rewrite (span_cons _ _ _ _ Hc) by lia.
           split; [constructor; [reflexivity|exact Hb]|].
           rewrite Hrun. cbn [nulWarnings]. rewrite Ascii.eqb_refl.
           now rewrite <- !app_assoc.
    + pose proof (peek_not_nul_lt _ _ _ Hc Hnz).
      destruct (IH (mkLexer (CurPtr L + 1) (Diags L)))
        as [(q & body & nl & Hq & Hs & Hb & Hn & Hrun)|(Hb & Hrun)];
        try range; cbn [CurPtr Diags] in *.
      * left. exists q, (c :: body), nl.
        split; [lia|]. split.
        { rewrite (span_cons _ _ _ _ Hc) by lia. now rewrite Hs. }
        split; [constructor; [exact Hnl|exact Hb]|].
        split; [exact Hn|].
        rewrite Hrun. cbn [nulWarnings].
        destruct (Ascii.eqb_spec c zero); [contradiction|reflexivity].
      * right. rewrite (span_cons _ _ _ _ Hc) by lia.
        split; [constructor; [exact Hnl|exact Hb]|].
        rewrite Hrun. cbn [nulWarnings].
        destruct (Ascii.eqb_spec c zero); [contradiction|reflexivity].
Qed.

Lemma SkipSlashSlashComment_eq L :
  peek (CurPtr L) = Some "/"%char ->
  peek (CurPtr L - 1) = Some "/"%char ->
  SkipSlashSlashComment Buffer NDEBUG L
  = SkipSlashSlashComment_loop Buffer (remaining Buffer L) L.
Proof.
  intros H0 H1. unfold SkipSlashSlashComment.
  erewrite bind_Ok; [reflexivity|].
  apply assert_true. mred. now rewrite H0, H1.
Qed.

End Comments.

(** ** One call of [Lex] *)

Section MainLoop.

Variable Buffer : list ascii.
Variable NDEBUG : bool.

Local Abbreviation BufferEnd := (getBufferEnd Buffer).
Local Abbreviation peek := (peek Buffer).
Local Abbreviation span := (span Buffer).
Local Abbreviation InRange := (InRange Buffer).
Local Abbreviation LexPost := (LexPost Buffer).

(** A token formed right at the cursor from at least one character. *)
Lemma LexPost_here L K q ds :
  InRange L -> CurPtr L < q <= BufferEnd -> K <> tok.eof ->
  LexPost L (mkToken K (mkStringRef (CurPtr L) (q - CurPtr L)))
          (mkLexer q ds).
Proof.
  intros Hr Hq HK. unfold LexPost. cbn [Kind Text Data Length CurPtr].
  split; [lia|]. split; [rewrite span_empty by lia; constructor|].
  split; [lia|]. split; [contradiction|]. intros _. range.
Qed.

(** Skipping [span (CurPtr L) p] first keeps the guarantee. *)
Lemma LexPost_skip L p ds T L' :
  InRange L -> CurPtr L <= p ->
  LexPost (mkLexer p ds) T L' ->
  Trivia (span (CurPtr L) (Data (Text T))) ->
  LexPost L T L'.
Proof.
  unfold LexPost. cbn [CurPtr]. intros Hr Hp (H1 & _ & H3 & H4 & H5) Ht.
  repeat split; try tauto; try lia.
Qed.

Lemma Lex_Restart_step fuel L c :
  peek (CurPtr L) = Some c ->
  Lex_Restart Buffer NDEBUG (S fuel) L
  = Lex_switch Buffer NDEBUG (Lex_Restart Buffer NDEBUG fuel) (CurPtr L) c
      (mkLexer (CurPtr L + 1) (Diags L)).
Proof.
  intros Hc. cbn [Lex_Restart].
  rewrite (bind_Ok getCurPtr _ L (CurPtr L) L) by reflexivity.
  now rewrite (bind_Ok (nextChar Buffer) _ L c
                 (mkLexer (CurPtr L + 1) (Diags L)))
    by (mred; now rewrite Hc).
Qed.

Lemma Lex_Restart_spec fuel L :
  InRange L ->
  (Z.to_nat (BufferEnd - CurPtr L) < fuel)%nat ->
  exists T L', Lex_Restart Buffer NDEBUG fuel L = Ok (T, L') /\ LexPost L T L'.
Proof.
  revert L. induction fuel as [|fuel IH]; intros L Hr Hf; [lia|].
  destruct (peek_total Buffer (CurPtr L)) as [c Hc]; [range|].
  pose proof (dispatch_classes c)
    as (Hident & Hdigit & Hdollar & Hnul & Hslash & Hcolon & Hpunct
        & Hdefault & _ & Hsingle).
  assert (Hlt : c <> zero -> 0 <= CurPtr L < BufferEnd)
    by (apply peek_not_nul_lt; exact Hc).
  rewrite (Lex_Restart_step fuel L c Hc).
  set (L1 := mkLexer (CurPtr L + 1) (Diags L)).
  assert (Hr1 : CurPtr L < BufferEnd -> InRange L1) by (subst L1; range).
  unfold Lex_switch.
  destruct (dispatch c) eqn:Hd;
    try (assert (Hnz : c <> zero)
          by (intros ->; vm_compute in Hd; discriminate);
         specialize (Hlt Hnz); specialize (Hr1 ltac:(lia))).
  - (* default *)
    mred. subst L1. cbn [CurPtr Diags]. do 2 eexists.
    split; [reflexivity|]. apply LexPost_here; [exact Hr|lia|discriminate].
  - (* whitespace *)
    destruct (IH L1) as (T & L' & Hrun & Hpost);
      [exact Hr1|subst L1; cbn [CurPtr]; lia|].
    exists T, L'. split; [exact Hrun|].
    apply (LexPost_skip L (CurPtr L + 1) (Diags L)); [exact Hr|lia|exact Hpost|].
    destruct Hpost as (Hs & Ht & _). cbn [CurPtr L1] in Hs, Ht.
    rewrite (span_cons _ _ _ _ Hc) by lia. now apply Trivia_space.
  - (* nul *)
    assert (c = zero) by (apply Ascii.eqb_eq, Hnul; reflexivity). subst c.
    mred. subst L1. cbn [CurPtr Diags].
    replace (CurPtr L + 1 - 1) with (CurPtr L) by lia.
    destruct (Z.eqb_spec (CurPtr L) BufferEnd) as [E|E];
      cbn [negb CurPtr Diags].
    + do 2 eexists. split; [reflexivity|].
      unfold LexPost. cbn [Kind Text Data Length CurPtr].
      split; [lia|]. split; [rewrite span_empty by lia; constructor|].
      split; [lia|]. split; [lia|]. intros H; now contradiction H.
    + set (L2 := mkLexer (CurPtr L + 1) _).
      destruct (IH L2) as (T & L' & Hrun & Hpost);
        [subst L2; range|subst L2; cbn [CurPtr]; range|].
      exists T, L'. split; [exact Hrun|].
      apply (LexPost_skip L (CurPtr L + 1) (Diags L2));
        [exact Hr|lia|exact Hpost|].
      destruct Hpost as (Hs & Ht & _). cbn [CurPtr L2] in Hs, Ht.
      rewrite (span_cons _ _ _ _ Hc) by lia. now apply Trivia_nul.
  - (* single-character punctuation *)
    mred. subst L1. cbn [CurPtr Diags]. do 2 eexists.
    split; [reflexivity|]. apply LexPost_here; [exact Hr|lia|now apply Hsingle].
  - (* colon *)
    destruct (peek_total Buffer (CurPtr L + 1)) as [c1 Hc1]; [lia|].
    mred. subst L1. cbn [CurPtr Diags]. rewrite Hc1.
    destruct (Ascii.eqb_spec c1 ":") as [->|Hne]; cbn [negb].
    + pose proof (peek_not_nul_lt _ _ _ Hc1 ltac:(discriminate)).
      do 2 eexists. split; [reflexivity|].
      apply LexPost_here; [exact Hr|lia|discriminate].
    + do 2 eexists. split; [reflexivity|].
      apply LexPost_here; [exact Hr|lia|discriminate].
  - (* slash *)
    assert (c = "/"%char) by (apply Ascii.eqb_eq, Hslash; reflexivity).
    subst c.
    destruct (peek_total Buffer (CurPtr L + 1)) as [c1 Hc1]; [lia|].
    rewrite (bind_Ok getCurPtr _ L1 (CurPtr L + 1) L1) by reflexivity.
    rewrite (bind_Ok (load Buffer (CurPtr L + 1)) _ L1 c1 L1)
      by (unfold load; now rewrite Hc1).
    destruct (Ascii.eqb_spec c1 "/") as [->|Hne].
    + assert (Hc0 : peek (CurPtr L1 - 1) = Some "/"%char).
      { subst L1. cbn [CurPtr]. now replace (CurPtr L + 1 - 1) with (CurPtr L) by lia. }
      pose proof (peek_not_nul_lt _ _ _ Hc1 ltac:(discriminate)) as Hlt1.
      assert (Hsp : span (CurPtr L) (CurPtr L + 1) = ["/"%char]).
      { rewrite (span_cons _ _ _ _ Hc) by lia. now rewrite span_empty by lia. }
      destruct (SkipSlashSlashComment_loop_spec Buffer
                  (remaining Buffer L1) L1 Hr1)
        as [(q & body & nl & Hq & Hs & Hb & Hn & Hrun)|(Hb & Hrun)];
        [unfold remaining; lia| |];
        rewrite <- (SkipSlashSlashComment_eq Buffer NDEBUG L1 Hc1 Hc0) in Hrun;
        rewrite (bind_Ok _ _ _ _ _ Hrun);
        cbn [CurPtr L1] in *.
      * set (L2 := mkLexer q _).
        destruct (IH L2) as (T & L' & Hrun2 & Hpost);
          [subst L2; range|subst L2; cbn [CurPtr]; lia|].
        exists T, L'. split; [exact Hrun2|].
        apply (LexPost_skip L q (Diags L2)); [exact Hr|lia|exact Hpost|].
        destruct Hpost as (Hs2 & Ht & _). cbn [CurPtr L2] in Hs2, Ht.
        rewrite (span_app _ (CurPtr L) (CurPtr L + 1)) by lia.
        rewrite (span_app _ (CurPtr L + 1) q) by lia.
        rewrite Hsp, Hs.
        rewrite (span_cons _ _ _ _ Hc1) in Hs by lia.
        destruct body as [|b body].
        { cbn in Hs. injection Hs as <- _. discriminate Hn. }
        cbn in Hs. injection Hs as <- _. inversion Hb; subst.
        cbn [app]. rewrite <- app_assoc. cbn [app].
        now apply Trivia_comment.
      * set (L2 := mkLexer BufferEnd _).
        destruct (IH L2) as (T & L' & Hrun2 & Hpost);
          [subst L2; range|subst L2; cbn [CurPtr]; lia|].
        exists T, L'. split; [exact Hrun2|].
        apply (LexPost_skip L BufferEnd (Diags L2));
          [exact Hr|lia|exact Hpost|].
        destruct Hpost as (Hs2 & _ & _ & He & Hne). cbn [CurPtr L2] in Hs2.
        assert (Data (Text T) = BufferEnd).
        { destruct (tok.eqb (Kind T) tok.eof) eqn:Ek.
          - apply He. destruct (Kind T); try discriminate; reflexivity.
          - assert (Kind T <> tok.eof) by (intros E; rewrite E in Ek; discriminate).
            specialize (Hne H). lia. }
        rewrite H.
        rewrite (span_app _ (CurPtr L) (CurPtr L + 1)) by lia.
        rewrite Hsp. cbn [app].
        rewrite (span_cons _ _ _ _ Hc1) in * by lia.
        inversion Hb; subst. now apply Trivia_comment_eof.
    + destruct (LexPunctuationIdentifier_spec Buffer L1 "/")
        as (q & K & Hrun & Hq & _ & _ & HK);
        [subst L1; range
        |subst L1; cbn [CurPtr];
         now replace (CurPtr L + 1 - 1) with (CurPtr L) by lia
        |reflexivity|].
      cbn [CurPtr L1] in *.
      replace (CurPtr L + 1 - 1) with (CurPtr L) in * by lia.
      do 2 eexists. split; [exact Hrun|].
      apply LexPost_here; [exact Hr|lia|].
      rewrite HK. cbv zeta.
      repeat match goal with
             | |- context [matches ?t ?S] => destruct (matches t S)
             end; discriminate.
  - (* other punctuator characters *)
    destruct (LexPunctuationIdentifier_spec Buffer L1 c)
      as (q & K & Hrun & Hq & _ & _ & HK);
      [subst L1; range
      |subst L1; cbn [CurPtr];
       now replace (CurPtr L + 1 - 1) with (CurPtr L) by lia
      |apply Hpunct; now right|].
    cbn [CurPtr L1] in *.
    replace (CurPtr L + 1 - 1) with (CurPtr L) in * by lia.
    do 2 eexists. split; [exact Hrun|].
    apply LexPost_here; [exact Hr|lia|].
    rewrite HK. cbv zeta.
    repeat match goal with
           | |- context [matches ?t ?S] => destruct (matches t S)
           end; discriminate.
  - (* identifier *)
    destruct (LexIdentifier_spec Buffer NDEBUG L1 c)
      as (q & K & Hrun & Hq & _ & _ & HK);
      [subst L1; range
      |subst L1; cbn [CurPtr];
       now replace (CurPtr L + 1 - 1) with (CurPtr L) by lia
      |exact Hd|].
    cbn [CurPtr L1] in *.
    replace (CurPtr L + 1 - 1) with (CurPtr L) in * by lia.
    do 2 eexists. split; [exact Hrun|].
    apply LexPost_here; [exact Hr|lia|].
    rewrite HK. cbv zeta.
    repeat match goal with
           | |- context [matches ?t ?S] => destruct (matches t S)
           end; discriminate.
  - (* dollar *)
    assert (c = "$"%char) by (apply Ascii.eqb_eq, Hdollar; reflexivity).
    subst c.
    destruct (LexDollarIdent_spec Buffer NDEBUG L1)
      as (q & Hrun & Hq & _);
      [subst L1; range
      |subst L1; cbn [CurPtr];
       now replace (CurPtr L + 1 - 1) with (CurPtr L) by lia|].
    cbn [CurPtr L1] in *.
    replace (CurPtr L + 1 - 1) with (CurPtr L) in * by lia.
    do 2 eexists. split; [exact Hrun|].
    apply LexPost_here; [exact Hr|lia|discriminate].
  - (* digit *)
    destruct (LexDigit_spec Buffer NDEBUG L1 c)
      as (q & Hrun & Hq & _);
      [subst L1; range
      |subst L1; cbn [CurPtr];
       now replace (CurPtr L + 1 - 1) with (CurPtr L) by lia
      |exact Hd|].
    cbn [CurPtr L1] in *.
    replace (CurPtr L + 1 - 1) with (CurPtr L) in * by lia.
    do 2 eexists. split; [exact Hrun|].
    apply LexPost_here; [exact Hr|lia|discriminate].
Qed.

Lemma Lex_eq L :
  InRange L ->
  Lex Buffer NDEBUG L = Lex_Restart Buffer NDEBUG (remaining Buffer L) L.
Proof.
  intros Hr. unfold Lex. erewrite bind_Ok; [reflexivity|].
  apply assert_true. mred. unfold InRange, getBufferStart in *.
  destruct (Z.leb_spec 0 (CurPtr L)), (Z.leb_spec (CurPtr L) BufferEnd);
    try reflexivity; lia.
Qed.

Lemma Lex_spec L :
  InRange L ->
  exists T L', Lex Buffer NDEBUG L = Ok (T, L') /\ LexPost L T L'.
Proof.
  intros Hr. rewrite (Lex_eq L Hr).
  apply Lex_Restart_spec; [exact Hr|unfold remaining; lia].
Qed.

(** Past the terminating nul [Lex] stops on its assertion, or, when
    assertions are compiled out, on the read of a foreign address. *)
Lemma Lex_past_end L :
  BufferEnd < CurPtr L ->
  Lex Buffer NDEBUG L
  = Err (if NDEBUG then OutOfBounds (CurPtr L)
         else AssertionFailed "Cur Char Pointer out of range!").
Proof.
  intros Hp. unfold Lex, assert. destruct NDEBUG.
  - mred. unfold remaining.
    replace (Z.to_nat (BufferEnd - CurPtr L)) with 0%nat by lia.
    cbn [Lex_Restart]. mred. now rewrite peek_None by lia.
  - mred. destruct (Z.leb_spec (CurPtr L) BufferEnd); [lia|].
    now rewrite andb_false_r.
Qed.

(** Before the start of the buffer [Lex] stops in the same two ways. *)
Lemma Lex_before_start L :
  CurPtr L < 0 ->
  Lex Buffer NDEBUG L
  = Err (if NDEBUG then OutOfBounds (CurPtr L)
         else AssertionFailed "Cur Char Pointer out of range!").
Proof.
  intros Hp. unfold Lex, assert. destruct NDEBUG.
  - mred. unfold remaining. cbn [Lex_Restart]. mred.
    now rewrite peek_None by lia.
  - mred. unfold getBufferStart.
    destruct (Z.leb_spec 0 (CurPtr L)); [lia|reflexivity].
Qed.

(** The loop bounds of the model are never what stops [Lex]. *)
Lemma Lex_fuel_suffices L : Lex Buffer NDEBUG L <> Err OutOfFuel.
Proof.
  destruct (Z_lt_le_dec (CurPtr L) 0) as [Hlo|Hlo].
  - rewrite Lex_before_start by exact Hlo. destruct NDEBUG; discriminate.
  - destruct (Z_lt_le_dec BufferEnd (CurPtr L)) as [Hhi|Hhi].
    + rewrite Lex_past_end by exact Hhi. destruct NDEBUG; discriminate.
    + destruct (Lex_spec L) as (T & L' & Hrun & _); [range|].
      rewrite Hrun. discriminate.
Qed.

Lemma tok_eqb_eq a b : tok.eqb a b = true <-> a = b.
Proof. destruct a, b; cbn; split; intros; congruence. Qed.

Lemma LexAll_spec calls L :
  InRange L ->
  (Z.to_nat (BufferEnd - CurPtr L) < calls)%nat ->
  exists Ts E L',
    LexAll Buffer NDEBUG calls L = Ok (Ts ++ [E], L') /\
    Kind E = tok.eof /\
    Forall (fun T => Kind T <> tok.eof /\ 0 < Length (Text T)) Ts /\
    (List.length Ts <= Z.to_nat (BufferEnd - CurPtr L))%nat /\
    CurPtr L' = BufferEnd + 1 /\
    Data (Text E) = BufferEnd /\
    CurPtr L <= resume (CurPtr L) Ts <= BufferEnd /\
    Forall (fun skipped_text => Trivia (fst skipped_text))
           (transcript Buffer (CurPtr L) Ts) /\
    Trivia (span (resume (CurPtr L) Ts) BufferEnd) /\
    List.concat (map (fun skipped_text => fst skipped_text ++ snd skipped_text)
                (transcript Buffer (CurPtr L) Ts))
    ++ span (resume (CurPtr L) Ts) BufferEnd
    = span (CurPtr L) BufferEnd.
Proof.
  revert L. induction calls as [|calls IH]; intros L Hr Hf; [lia|].
  destruct (Lex_spec L Hr) as (T & L1 & Hrun & Hpost).
  cbn [LexAll]. rewrite (bind_Ok _ _ _ _ _ Hrun).
  destruct Hpost as (Hs & Ht & Hcur & He & Hne).
  destruct (tok.eqb (Kind T) tok.eof) eqn:Ek.
  - apply tok_eqb_eq in Ek. destruct (He Ek) as (HsE & HnE).
    exists [], T, L1. cbn [app List.length resume transcript map List.concat].
    rewrite HsE in *.
    repeat split; try (constructor || assumption || reflexivity || range).
  - assert (Hk : Kind T <> tok.eof)
      by (intros E; rewrite E in Ek; discriminate).
    destruct (Hne Hk) as (HsN & Hn0 & HeN).
    destruct (IH L1) as (Ts & E & L' & Hall & HE & Hnon & Hlen & Hend & HdE
                         & Hres & Htr & Hfin & Hcat); [range|lia|].
    rewrite Hcur in *.
    exists (T :: Ts), E, L'. unfold bind, ret. rewrite Hall.
    cbn [app List.length resume transcript map List.concat fst snd].
    split; [reflexivity|]. split; [exact HE|].
    split; [constructor; [split; assumption|exact Hnon]|].
    split; [lia|]. split; [exact Hend|]. split; [exact HdE|].
    split; [lia|]. split; [constructor; [exact Ht|exact Htr]|].
    split; [exact Hfin|].
    rewrite <- !app_assoc, Hcat, str_span.
    rewrite <- (span_app Buffer (Data (Text T))) by range.
    rewrite <- (span_app Buffer (CurPtr L)) by range.
    reflexivity.
Qed.

Lemma Lex_at L c :
  peek (CurPtr L) = Some c ->
  Lex Buffer NDEBUG L
  = Lex_switch Buffer NDEBUG
      (Lex_Restart Buffer NDEBUG (Z.to_nat (BufferEnd - CurPtr L)))
      (CurPtr L) c (mkLexer (CurPtr L + 1) (Diags L)).
Proof.
  intros Hc. rewrite Lex_eq by (apply (peek_Some_range _ _ _ Hc)).
  unfold remaining. now apply Lex_Restart_step.
Qed.

Lemma Lex_at_identifier L c :
  peek (CurPtr L) = Some c ->
  dispatch c = CaseIdentifier ->
  exists q K,
    Lex Buffer NDEBUG L
    = Ok (mkToken K (mkStringRef (CurPtr L) (q - CurPtr L)),
          mkLexer q (Diags L)) /\
    CurPtr L < q <= BufferEnd /\
    Forall (fun c => isIdentBody c = true) (span (CurPtr L + 1) q) /\
    (exists c', peek q = Some c' /\ isIdentBody c' = false) /\
    K = (let text := span (CurPtr L) q in
         if matches text "__builtin_int32_type"
         then tok.kw___builtin_int32_type
         else if matches text "oneof" then tok.kw_oneof
         else if matches text "struct" then tok.kw_struct
         else if matches text "var" then tok.kw_var
         else if matches text "func" then tok.kw_func
         else if matches text "typealias" then tok.kw_typealias
         else tok.identifier).
Proof.
  intros Hc Hd. rewrite (Lex_at L c Hc). unfold Lex_switch. rewrite Hd.
  assert (Hlt : 0 <= CurPtr L < BufferEnd).
  { apply (peek_not_nul_lt _ _ _ Hc). intros ->. discriminate Hd. }
  set (L1 := mkLexer (CurPtr L + 1) (Diags L)).
  destruct (LexIdentifier_spec Buffer NDEBUG L1 c)
    as (q & K & Hrun & Hq & Hall & Hstop & HK);
    [subst L1; range
    |subst L1; cbn [CurPtr];
     now replace (CurPtr L + 1 - 1) with (CurPtr L) by lia
    |exact Hd|].
  cbn [CurPtr Diags L1] in *.
  replace (CurPtr L + 1 - 1) with (CurPtr L) in * by lia.
  exists q, K. split; [exact Hrun|]. split; [lia|]. auto.
Qed.

Lemma Lex_at_punctuator L c :
  peek (CurPtr L) = Some c ->
  strchr_in PunctuatorCharacters c = true ->
  (c = "/"%char -> peek (CurPtr L + 1) <> Some "/"%char) ->
  exists q K,
    Lex Buffer NDEBUG L
    = Ok (mkToken K (mkStringRef (CurPtr L) (q - CurPtr L)),
          mkLexer q (Diags L)) /\
    CurPtr L < q <= BufferEnd /\
    Forall (fun c => strchr_in PunctuatorCharacters c = true)
           (span (CurPtr L) q) /\
    (exists c', peek q = Some c' /\
                strchr_in PunctuatorCharacters c' = false) /\
    K = (let text := span (CurPtr L) q in
         if matches text "=" then tok.equal
         else if matches text "->" then tok.arrow
         else tok.identifier).
Proof.
  intros Hc Hp Hcomment. rewrite (Lex_at L c Hc).
  assert (Hlt : 0 <= CurPtr L < BufferEnd).
  { apply (peek_not_nul_lt _ _ _ Hc). intros ->. discriminate Hp. }
  set (L1 := mkLexer (CurPtr L + 1) (Diags L)).
  destruct (LexPunctuationIdentifier_spec Buffer L1 c)
    as (q & K & Hrun & Hq & Hall & Hstop & HK);
    [subst L1; range
    |subst L1; cbn [CurPtr];
     now replace (CurPtr L + 1 - 1) with (CurPtr L) by lia
    |exact Hp|].
  cbn [CurPtr Diags L1] in *.
  replace (CurPtr L + 1 - 1) with (CurPtr L) in * by lia.
  exists q, K. split; [|split; [lia|auto]].
  unfold Lex_switch.
  apply (dispatch_classes c) in Hp. destruct Hp as [Hd|Hd]; rewrite Hd.
  - assert (c = "/"%char)
      by (apply Ascii.eqb_eq, (dispatch_classes c); exact Hd).
    destruct (peek_total Buffer (CurPtr L + 1)) as [c1 Hc1]; [lia|].
    rewrite (bind_Ok getCurPtr _ L1 (CurPtr L + 1) L1) by reflexivity.
    rewrite (bind_Ok (load Buffer (CurPtr L + 1)) _ L1 c1 L1)
      by (unfold load; now rewrite Hc1).
    destruct (Ascii.eqb_spec c1 "/") as [->|Hne]; [|exact Hrun].
    now contradiction (Hcomment H).
  - exact Hrun.
Qed.

Lemma Lex_at_unmatched L c :
  peek (CurPtr L) = Some c ->
  unmatched c = true ->
  forall Restart,
    Lex_switch Buffer NDEBUG Restart (CurPtr L) c
      (mkLexer (CurPtr L + 1) (Diags L))
    = Ok (mkToken tok.unknown (mkStringRef (CurPtr L) 1),
          mkLexer (CurPtr L + 1)
            (Diags L ++ [mkDiagnostic error (CurPtr L)
                           "invalid character in source file"])).
Proof.
  intros Hc Hu Restart. apply (dispatch_classes c) in Hu.
  unfold Lex_switch. rewrite Hu. mred.
  now replace (CurPtr L + 1 - 1) with (CurPtr L) by lia;
    replace (CurPtr L + 1 - CurPtr L) with 1 by lia.
Qed.

Lemma Lex_at_nul L :
  peek (CurPtr L) = Some zero ->
  CurPtr L < BufferEnd ->
  forall Restart,
    Lex_switch Buffer NDEBUG Restart (CurPtr L) zero
      (mkLexer (CurPtr L + 1) (Diags L))
    = Restart (mkLexer (CurPtr L + 1)
                 (Diags L ++ [mkDiagnostic warning (CurPtr L)
                    "nul character embedded in middle of file"])).
Proof.
  intros Hc Hlt Restart. unfold Lex_switch.
  change (dispatch zero) with CaseNul. mred.
  replace (CurPtr L + 1 - 1) with (CurPtr L) by lia.
  destruct (Z.eqb_spec (CurPtr L) BufferEnd); [lia|reflexivity].
Qed.

End MainLoop.

Lemma Lexer_new_InRange Buffer : InRange Buffer Lexer_new.
Proof.
  unfold InRange, Lexer_new, getBufferStart, getBufferEnd. cbn [CurPtr]. lia.
Qed.

(** * The claims of the specification *)

(** C1: once [Lex] has returned the end-of-input token every later call
    should return it again, and the end-of-input call should leave the
    cursor on the terminating nul.  The code does neither: after the token
    stream of any buffer has been drained the cursor is one past the nul,
    and the next call stops on the range assertion of [Lex] or, with
    assertions compiled out, on a read outside the buffer; it returns no
    token at all. *)
Theorem Lex_after_eof_faults (Buffer : list ascii) (NDEBUG : bool) :
  exists Ts E L',
    LexAll Buffer NDEBUG (S (List.length Buffer)) Lexer_new
    = Ok (Ts ++ [E], L') /\
    Kind E = tok.eof /\
    CurPtr L' = getBufferEnd Buffer + 1 /\
    Lex Buffer NDEBUG L'
    = Err (if NDEBUG then OutOfBounds (getBufferEnd Buffer + 1)
           else AssertionFailed "Cur Char Pointer out of range!") /\
    forall T L'', Lex Buffer NDEBUG L' <> Ok (T, L'').
Proof.
  destruct (LexAll_spec Buffer NDEBUG (S (List.length Buffer)) Lexer_new)
    as (Ts & E & L' & Hrun & HE & _ & _ & Hend & _);
    [apply Lexer_new_InRange
    |unfold Lexer_new, getBufferEnd, getBufferStart; cbn [CurPtr]; lia|].
  exists Ts, E, L'. split; [exact Hrun|]. split; [exact HE|].
  split; [exact Hend|].
  assert (Hfault := Lex_past_end Buffer NDEBUG L' ltac:(lia)).
  rewrite Hend in Hfault. split; [exact Hfault|].
  intros T L''. rewrite Hfault. discriminate.
Qed.

(** C2: the cursor should stay within the buffer and its terminating nul
    over any sequence of calls, and no character past the nul should be
    read.  The call that returns the end-of-input token breaks the
    invariant that [Lex] itself asserts on entry, and with assertions
    compiled out the call after it reads the address past the nul. *)
Theorem Lex_leaves_cursor_past_end (Buffer : list ascii) (NDEBUG : bool) :
  exists Ts L',
    LexAll Buffer NDEBUG (S (List.length Buffer)) Lexer_new = Ok (Ts, L') /\
    ~ InRange Buffer L' /\
    Lex Buffer true L' = Err (OutOfBounds (getBufferEnd Buffer + 1)).
Proof.
  destruct (LexAll_spec Buffer NDEBUG (S (List.length Buffer)) Lexer_new)
    as (Ts & E & L' & Hrun & _ & _ & _ & Hend & _);
    [apply Lexer_new_InRange
    |unfold Lexer_new, getBufferEnd, getBufferStart; cbn [CurPtr]; lia|].
  exists (Ts ++ [E]), L'. split; [exact Hrun|].
  split; [unfold InRange; lia|].
  rewrite (Lex_past_end Buffer true L') by lia. now rewrite Hend.
Qed.

(** The shortest run that shows C1 and C2: two calls on the empty buffer. *)
Example Lex_twice_on_empty_buffer (NDEBUG : bool) :
  Lex [] NDEBUG Lexer_new
  = Ok (mkToken tok.eof (mkStringRef 0 1), mkLexer 1 []) /\
  getBufferEnd [] = 0 /\
  Lex [] NDEBUG (mkLexer 1 [])
  = Err (if NDEBUG then OutOfBounds 1
         else AssertionFailed "Cur Char Pointer out of range!").
Proof. destruct NDEBUG; vm_compute; repeat split; reflexivity. Qed.

(** C3: from any state that satisfies the entry assertion of [Lex], a call
    returns a token; unless that token is end-of-input its text is not
    empty, the cursor has moved strictly forward to the end of the token
    and is in range again.  Calling [Lex] until end-of-input takes at most
    as many calls as the buffer has characters, plus one. *)
Theorem Lex_terminates_within_length_plus_one
  (Buffer : list ascii) (NDEBUG : bool) (L : Lexer) :
  InRange Buffer L ->
  (exists T L',
      Lex Buffer NDEBUG L = Ok (T, L') /\
      (Kind T <> tok.eof ->
       0 < Length (Text T) /\
       CurPtr L < CurPtr L' /\
       CurPtr L <= Data (Text T) /\
       CurPtr L' = Data (Text T) + Length (Text T) /\
       InRange Buffer L')) /\
  (exists Ts E L',
      LexAll Buffer NDEBUG (S (List.length Buffer)) L = Ok (Ts ++ [E], L') /\
      Kind E = tok.eof /\
      Forall (fun T => Kind T <> tok.eof /\ 0 < Length (Text T)) Ts /\
      (List.length (Ts ++ [E]) <= List.length Buffer + 1)%nat).
Proof.
  intros Hr. split.
  - destruct (Lex_spec Buffer NDEBUG L Hr)
      as (T & L' & Hrun & Hs & _ & Hcur & _ & Hne).
    exists T, L'. split; [exact Hrun|]. intros Hk.
    specialize (Hne Hk). range.
  - destruct (LexAll_spec Buffer NDEBUG (S (List.length Buffer)) L Hr)
      as (Ts & E & L' & Hrun & HE & Hnon & Hlen & _);
      [unfold getBufferEnd, InRange, getBufferStart in *; lia|].
    exists Ts, E, L'. split; [exact Hrun|]. split; [exact HE|].
    split; [exact Hnon|].
    rewrite length_app. cbn [List.length].
    unfold getBufferEnd, InRange, getBufferStart in *. lia.
Qed.

Lemma Lex_terminates_within_length_plus_one_witness :
  InRange (buf "a = //b") Lexer_new /\
  exists Ts E L',
    LexAll (buf "a = //b") false 8 Lexer_new = Ok (Ts ++ [E], L') /\
    Kind E = tok.eof /\
    Forall (fun T => Kind T <> tok.eof /\ 0 < Length (Text T)) Ts /\
    (List.length (Ts ++ [E]) <= 7 + 1)%nat.
Proof.
  assert (Hr : InRange (buf "a = //b") Lexer_new) by (vm_compute; split; discriminate).
  split; [exact Hr|].
  exact (proj2 (Lex_terminates_within_length_plus_one
                  (buf "a = //b") false Lexer_new Hr)).
Defined.

(** C4: read back against the buffer, the texts of the tokens returned
    before end-of-input, each preceded by the text skipped in front of it,
    and followed by the text skipped in front of the end-of-input token,
    concatenate to the buffer; every skipped text consists of whitespace,
    nul characters and [//] comments only. *)
Theorem token_spans_reconstruct_buffer (Buffer : list ascii) (NDEBUG : bool) :
  exists Ts E L',
    LexAll Buffer NDEBUG (S (List.length Buffer)) Lexer_new
    = Ok (Ts ++ [E], L') /\
    Kind E = tok.eof /\
    Forall (fun T => Kind T <> tok.eof) Ts /\
    Forall (fun skipped_text => Trivia (fst skipped_text))
           (transcript Buffer 0 Ts) /\
    Trivia (span Buffer (resume 0 Ts) (Data (Text E))) /\
    List.concat (map (fun skipped_text => fst skipped_text ++ snd skipped_text)
                     (transcript Buffer 0 Ts))
    ++ span Buffer (resume 0 Ts) (Data (Text E))
    = Buffer.
Proof.
  destruct (LexAll_spec Buffer NDEBUG (S (List.length Buffer)) Lexer_new)
    as (Ts & E & L' & Hrun & HE & Hnon & _ & _ & HdE & _ & Htr & Hfin & Hcat);
    [apply Lexer_new_InRange
    |unfold Lexer_new, getBufferEnd, getBufferStart; cbn [CurPtr]; lia|].
  cbn [Lexer_new CurPtr] in *. unfold getBufferStart in *.
  exists Ts, E, L'. rewrite HdE, Hcat, span_Buffer.
  split; [exact Hrun|]. split; [exact HE|].
  split; [eapply Forall_impl; [|exact Hnon]; cbv beta; tauto|].
  auto.
Qed.

Lemma matches_false l S : matches l S = false -> l <> list_ascii_of_string S.
Proof. intros H E. apply matches_true in E. congruence. Qed.

Ltac split_matches :=
  repeat match goal with
         | |- context [matches ?t ?S] =>
             let E := fresh "E" in
             destruct (matches t S) eqn:E;
             [apply matches_true in E|apply matches_false in E]
         end.

(** The chain of [Case]s of [LexIdentifier] against the reserved spellings
    of the specification. *)
Lemma reserved_chain (text : list ascii) :
  let K := if matches text "__builtin_int32_type"
           then tok.kw___builtin_int32_type
           else if matches text "oneof" then tok.kw_oneof
           else if matches text "struct" then tok.kw_struct
           else if matches text "var" then tok.kw_var
           else if matches text "func" then tok.kw_func
           else if matches text "typealias" then tok.kw_typealias
           else tok.identifier in
  (forall S K', In (S, K') reserved ->
                (K = K' <-> text = list_ascii_of_string S)) /\
  ((forall S K', In (S, K') reserved -> text <> list_ascii_of_string S) ->
   K = tok.identifier).
Proof.
  cbv zeta. split.
  - intros S K' Hin. cbn [reserved In] in Hin.
    repeat (destruct Hin as [Hin|Hin]; [injection Hin as <- <-|]);
      try contradiction;
      repeat match goal with
             | |- context [matches text ?S] =>
                 let E := fresh "E" in destruct (matches text S) eqn:E
             end;
      (split; intros H;
       [try discriminate H; apply matches_true; assumption
       |subst text;
        repeat match goal with
               | E : matches _ _ = _ |- _ =>
                   vm_compute in E; try discriminate E; clear E
               end; reflexivity]).
  - intros Hnone. split_matches; try reflexivity; exfalso;
      match goal with
      | E : text = list_ascii_of_string ?S |- _ =>
          eapply (Hnone S); [|exact E]; cbn [reserved In]; tauto
      end.
Qed.

(** C5: an identifier span is a letter or underscore followed by the
    longest run of letters, digits, underscores and dollars; its token has
    the kind of a reserved word exactly when its text is that word's
    spelling, and the kind [identifier] when it is none of them. *)
Theorem LexIdentifier_reserved_words
  (Buffer : list ascii) (NDEBUG : bool) (L : Lexer) (c : ascii) :
  peek Buffer (CurPtr L) = Some c ->
  isalpha c || Ascii.eqb c "_" = true ->
  exists T L',
    Lex Buffer NDEBUG L = Ok (T, L') /\
    Data (Text T) = CurPtr L /\
    CurPtr L' = Data (Text T) + Length (Text T) /\
    str Buffer (Text T) = c :: span Buffer (CurPtr L + 1) (CurPtr L') /\
    Forall (fun c => isIdentBody c = true)
           (span Buffer (CurPtr L + 1) (CurPtr L')) /\
    (exists c', peek Buffer (CurPtr L') = Some c' /\ isIdentBody c' = false) /\
    (forall S K, In (S, K) reserved ->
                 (Kind T = K <-> str Buffer (Text T) = list_ascii_of_string S)) /\
    ((forall S K, In (S, K) reserved ->
                  str Buffer (Text T) <> list_ascii_of_string S) ->
     Kind T = tok.identifier).
Proof.
  intros Hc Hstart. apply (dispatch_classes c) in Hstart.
  destruct (Lex_at_identifier Buffer NDEBUG L c Hc Hstart)
    as (q & K & Hrun & Hq & Hall & Hstop & HK).
  do 2 eexists. split; [exact Hrun|]. cbn [Kind Text Data Length CurPtr].
  change (str Buffer (mkStringRef (CurPtr L) (q - CurPtr L)))
    with (span Buffer (CurPtr L) q).
  split; [reflexivity|]. split; [lia|].
  split; [apply span_cons; [exact Hc|lia]|].
  split; [exact Hall|]. split; [exact Hstop|].
  subst K. apply reserved_chain.
Qed.

Lemma LexIdentifier_reserved_words_witness :
  peek (buf "struct x") (CurPtr Lexer_new) = Some "s"%char /\
  isalpha "s" || Ascii.eqb "s" "_" = true /\
  exists T L',
    Lex (buf "struct x") false Lexer_new = Ok (T, L') /\
    (Kind T = tok.kw_struct
     <-> str (buf "struct x") (Text T) = list_ascii_of_string "struct").
Proof.
  split; [reflexivity|]. split; [reflexivity|].
  destruct (LexIdentifier_reserved_words (buf "struct x") false Lexer_new "s"
              eq_refl eq_refl)
    as (T & L' & Hrun & _ & _ & _ & _ & _ & Hres & _).
  exists T, L'. split; [exact Hrun|].
  apply Hres. cbn [reserved In]. tauto.
Defined.

(** The spellings the specification lists, lexed from the start of a
    buffer of their own. *)
Example Lex_reserved_spellings (NDEBUG : bool) :
  map (fun s => match Lex (buf s) NDEBUG Lexer_new with
                | Ok (T, _) => Some (Kind T, Length (Text T))
                | Err _ => None
                end)
      ["func"; "var"; "struct"; "typealias"; "oneof"; "__builtin_int32_type";
       "funct"; "Var"; "_func"]%string
  = [Some (tok.kw_func, 4); Some (tok.kw_var, 3); Some (tok.kw_struct, 6);
     Some (tok.kw_typealias, 9); Some (tok.kw_oneof, 5);
     Some (tok.kw___builtin_int32_type, 20);
     Some (tok.identifier, 5); Some (tok.identifier, 3);
     Some (tok.identifier, 5)].
Proof. destruct NDEBUG; vm_compute; reflexivity. Qed.

(** C6: a run of operator characters that [Lex] meets (and that does not
    open a [//] comment) becomes one token that spans the longest such run;
    its kind is [equal] exactly for the text [=], [arrow] exactly for the
    text [->], and [identifier], the generic kind, for every other run. *)
Theorem LexPunctuationIdentifier_kinds
  (Buffer : list ascii) (NDEBUG : bool) (L : Lexer) (c : ascii) :
  peek Buffer (CurPtr L) = Some c ->
  strchr_in PunctuatorCharacters c = true ->
  (c = "/"%char -> peek Buffer (CurPtr L + 1) <> Some "/"%char) ->
  exists T L',
    Lex Buffer NDEBUG L = Ok (T, L') /\
    Data (Text T) = CurPtr L /\
    0 < Length (Text T) /\
    CurPtr L' = Data (Text T) + Length (Text T) /\
    Diags L' = Diags L /\
    Forall (fun c => strchr_in PunctuatorCharacters c = true)
           (str Buffer (Text T)) /\
    (exists c', peek Buffer (CurPtr L') = Some c' /\
                strchr_in PunctuatorCharacters c' = false) /\
    (Kind T = tok.equal <-> str Buffer (Text T) = list_ascii_of_string "=") /\
    (Kind T = tok.arrow <-> str Buffer (Text T) = list_ascii_of_string "->") /\
    (str Buffer (Text T) <> list_ascii_of_string "=" ->
     str Buffer (Text T) <> list_ascii_of_string "->" ->
     Kind T = tok.identifier).
Proof.
  intros Hc Hp Hcomment.
  destruct (Lex_at_punctuator Buffer NDEBUG L c Hc Hp Hcomment)
    as (q & K & Hrun & Hq & Hall & Hstop & HK).
  do 2 eexists. split; [exact Hrun|]. cbn [Kind Text Data Length CurPtr Diags].
  change (str Buffer (mkStringRef (CurPtr L) (q - CurPtr L)))
    with (span Buffer (CurPtr L) q).
  split; [reflexivity|]. split; [lia|]. split; [lia|].
  split; [reflexivity|]. split; [exact Hall|]. split; [exact Hstop|].
  subst K. cbv zeta.
  split_matches; repeat split; intros; try discriminate; try reflexivity;
    try assumption; try contradiction;
    try (exfalso; match goal with
                  | H : span _ _ _ = _, H' : span _ _ _ = _ |- _ =>
                      rewrite H in H'; discriminate H'
                  end).
Qed.

Lemma LexPunctuationIdentifier_kinds_witness :
  peek (buf "a->b") 1 = Some "-"%char /\
  strchr_in PunctuatorCharacters "-" = true /\
  exists T L',
    Lex (buf "a->b") false (mkLexer 1 []) = Ok (T, L') /\
    Length (Text T) = 2 /\ Kind T = tok.arrow.
Proof.
  split; [reflexivity|]. split; [reflexivity|].
  destruct (LexPunctuationIdentifier_kinds (buf "a->b") false (mkLexer 1 [])
              "-" eq_refl eq_refl ltac:(discriminate))
    as (T & L' & Hrun & _ & _ & _ & _ & _ & _ & _ & _ & _).
  exists T, L'. split; [exact Hrun|].
  vm_compute in Hrun. injection Hrun as <- _. split; reflexivity.
Defined.

(** The operator runs the specification lists, each lexed from the start
    of a buffer of its own; the last buffer is a lone [/] before a name. *)
Example Lex_operator_runs (NDEBUG : bool) :
  map (fun s => match Lex (buf s) NDEBUG Lexer_new with
                | Ok (T, _) => Some (Kind T, Length (Text T))
                | Err _ => None
                end)
      ["="; "->"; "=="; "+="; "<<"; "<"; "/"; "/x"; "+//"]%string
  = [Some (tok.equal, 1); Some (tok.arrow, 2); Some (tok.identifier, 2);
     Some (tok.identifier, 2); Some (tok.identifier, 2);
     Some (tok.identifier, 1); Some (tok.identifier, 1);
     Some (tok.identifier, 1); Some (tok.identifier, 3)].
Proof. destruct NDEBUG; vm_compute; reflexivity. Qed.

(** C7: when the dispatch of [Lex] meets a character that none of its case
    labels names, it reports one error at the address of that character
    and nothing else, returns the [unknown] token for that one character
    and leaves the cursor just behind it; calling [Lex] on from there still
    reaches the end-of-input token. *)
Theorem Lex_invalid_character
  (Buffer : list ascii) (NDEBUG : bool) (L : Lexer) (c : ascii) :
  peek Buffer (CurPtr L) = Some c ->
  unmatched c = true ->
  Lex Buffer NDEBUG L
  = Ok (mkToken tok.unknown (mkStringRef (CurPtr L) 1),
        mkLexer (CurPtr L + 1)
          (Diags L ++ [mkDiagnostic error (CurPtr L)
                         "invalid character in source file"])) /\
  (forall fuel,
      Lex_Restart Buffer NDEBUG (S fuel) L
      = Ok (mkToken tok.unknown (mkStringRef (CurPtr L) 1),
            mkLexer (CurPtr L + 1)
              (Diags L ++ [mkDiagnostic error (CurPtr L)
                             "invalid character in source file"]))) /\
  exists Ts E L'',
    LexAll Buffer NDEBUG (S (List.length Buffer))
      (mkLexer (CurPtr L + 1)
         (Diags L ++ [mkDiagnostic error (CurPtr L)
                        "invalid character in source file"]))
    = Ok (Ts ++ [E], L'') /\
    Kind E = tok.eof.
Proof.
  intros Hc Hu.
  assert (Hlt : 0 <= CurPtr L < getBufferEnd Buffer).
  { apply (peek_not_nul_lt _ _ _ Hc). intros ->. discriminate Hu. }
  split; [|split].
  - rewrite (Lex_at Buffer NDEBUG L c Hc). now apply Lex_at_unmatched.
  - intros fuel. rewrite (Lex_Restart_step Buffer NDEBUG fuel L c Hc).
    now apply Lex_at_unmatched.
  - set (L1 := mkLexer _ _).
    destruct (LexAll_spec Buffer NDEBUG (S (List.length Buffer)) L1)
      as (Ts & E & L'' & Hrun & HE & _);
      [subst L1; range
      |subst L1; unfold getBufferEnd in *; cbn [CurPtr]; lia|].
    now exists Ts, E, L''.
Qed.

Lemma Lex_invalid_character_witness :
  peek (buf "@") (CurPtr Lexer_new) = Some "@"%char /\
  unmatched "@" = true /\
  Lex (buf "@") false Lexer_new
  = Ok (mkToken tok.unknown (mkStringRef 0 1),
        mkLexer 1 [mkDiagnostic error 0 "invalid character in source file"]).
Proof.
  split; [reflexivity|]. split; [reflexivity|].
  exact (proj1 (Lex_invalid_character (buf "@") false Lexer_new "@"
                  eq_refl eq_refl)).
Defined.

(** The specification's example: a lone [@] gives the [unknown] token, one
    error, and then the end-of-input token. *)
Example Lex_at_sign (NDEBUG : bool) :
  LexAll (buf "@") NDEBUG 2 Lexer_new
  = Ok ([mkToken tok.unknown (mkStringRef 0 1);
         mkToken tok.eof (mkStringRef 1 1)],
        mkLexer 2 [mkDiagnostic error 0 "invalid character in source file"]).
Proof. destruct NDEBUG; vm_compute; reflexivity. Qed.

Lemma remaining_step Buffer p ds ds' :
  p < getBufferEnd Buffer ->
  remaining Buffer (mkLexer p ds)
  = S (remaining Buffer (mkLexer (p + 1) ds')).
Proof. intros H. unfold remaining. cbn [CurPtr]. lia. Qed.

(** A nul between two names, and a nul inside a comment. *)
Example Lex_embedded_nul (NDEBUG : bool) :
  LexAll ["a"; zero; "b"; "/"; "/"; zero; "c"; "010"; "d"]%char NDEBUG 10
    Lexer_new
  = Ok ([mkToken tok.identifier (mkStringRef 0 1);
         mkToken tok.identifier (mkStringRef 2 1);
         mkToken tok.identifier (mkStringRef 8 1);
         mkToken tok.eof (mkStringRef 9 1)],
        mkLexer 10
          [mkDiagnostic warning 1 "nul character embedded in middle of file";
           mkDiagnostic warning 5 "nul character embedded in middle of file"]).
Proof. destruct NDEBUG; vm_compute; reflexivity. Qed.

Lemma Lex_at_end Buffer NDEBUG ds :
  Lex Buffer NDEBUG (mkLexer (getBufferEnd Buffer) ds)
  = Ok (mkToken tok.eof (mkStringRef (getBufferEnd Buffer) 1),
        mkLexer (getBufferEnd Buffer + 1) ds).
Proof.
  rewrite (Lex_at Buffer NDEBUG _ zero) by (cbn [CurPtr]; apply peek_end).
  unfold Lex_switch. change (dispatch zero) with CaseNul. mred.
  replace (getBufferEnd Buffer + 1 - 1) with (getBufferEnd Buffer) by lia.
  rewrite Z.eqb_refl. cbn [negb CurPtr]. do 4 f_equal. lia.
Qed.

(** C9: entered on the second slash of a [//] marker, the comment skipper
    passes over everything up to and including the next newline or
    carriage return, returns no token and reports nothing but the nul
    characters it met.  If the buffer ends first, it leaves the cursor on
    the terminating nul and reports the missing newline, and [Lex] started
    there returns the end-of-input token.  In a buffer that holds a
    comment, a newline and [foo], the first token is the identifier
    [foo]. *)
Theorem SkipSlashSlashComment_contract
  (Buffer : list ascii) (NDEBUG : bool) (L : Lexer) :
  peek Buffer (CurPtr L) = Some "/"%char ->
  peek Buffer (CurPtr L - 1) = Some "/"%char ->
  ((exists q body nl,
       CurPtr L < q <= getBufferEnd Buffer /\
       span Buffer (CurPtr L) q = body ++ [nl] /\
       noNewline body /\ isNewline nl = true /\
       SkipSlashSlashComment Buffer NDEBUG L
       = Ok (tt, mkLexer q (Diags L ++ nulWarnings (CurPtr L) body)))
   \/
   (noNewline (span Buffer (CurPtr L) (getBufferEnd Buffer)) /\
    exists ds,
      ds = Diags L
           ++ nulWarnings (CurPtr L)
                (span Buffer (CurPtr L) (getBufferEnd Buffer))
           ++ [mkDiagnostic warning (getBufferEnd Buffer - 1)
                 "no newline at end of // comment"] /\
      SkipSlashSlashComment Buffer NDEBUG L
      = Ok (tt, mkLexer (getBufferEnd Buffer) ds) /\
      Lex Buffer NDEBUG (mkLexer (getBufferEnd Buffer) ds)
      = Ok (mkToken tok.eof (mkStringRef (getBufferEnd Buffer) 1),
            mkLexer (getBufferEnd Buffer + 1) ds)))
  /\
  Lex (buf ("// comment" ++ String "010" "foo")) NDEBUG Lexer_new
  = Ok (mkToken tok.identifier (mkStringRef 11 3), mkLexer 14 []) /\
  str (buf ("// comment" ++ String "010" "foo")) (mkStringRef 11 3)
  = list_ascii_of_string "foo".
Proof.
  intros H0 H1. split; [|split; [destruct NDEBUG; vm_compute|]; reflexivity].
  rewrite (SkipSlashSlashComment_eq Buffer NDEBUG L H0 H1).
  destruct (SkipSlashSlashComment_loop_spec Buffer (remaining Buffer L) L)
    as [(q & body & nl & Hq & Hs & Hb & Hn & Hrun)|(Hb & Hrun)];
    [apply (peek_Some_range _ _ _ H0)|unfold remaining; lia| |].
  - left. now exists q, body, nl.
  - right. split; [exact Hb|]. eexists. split; [reflexivity|].
    split; [exact Hrun|]. apply Lex_at_end.
Qed.

Lemma SkipSlashSlashComment_contract_witness :
  peek (buf "//x") 1 = Some "/"%char /\
  peek (buf "//x") (1 - 1) = Some "/"%char /\
  SkipSlashSlashComment (buf "//x") false (mkLexer 1 [])
  = Ok (tt, mkLexer 3 [mkDiagnostic warning 2
                         "no newline at end of // comment"]).
Proof.
  split; [reflexivity|]. split; [reflexivity|].
  destruct (proj1 (SkipSlashSlashComment_contract (buf "//x") false
                     (mkLexer 1 []) eq_refl eq_refl))
    as [(q & body & nl & _ & _ & _ & _ & Hrun)|(_ & ds & _ & Hrun & _)];
    vm_compute in Hrun |- *; reflexivity.
Defined.

(** C10: the token of an operator run that is neither [=] nor [->] has
    the very kind of the token of an identifier that is no reserved word;
    an operator run never gets a kind besides [equal], [arrow] and that
    one. *)
Theorem operator_runs_share_identifier_kind
  (Buffer1 Buffer2 : list ascii) (NDEBUG : bool) (L1 L2 : Lexer)
  (c1 c2 : ascii) :
  peek Buffer1 (CurPtr L1) = Some c1 ->
  strchr_in PunctuatorCharacters c1 = true ->
  (c1 = "/"%char -> peek Buffer1 (CurPtr L1 + 1) <> Some "/"%char) ->
  peek Buffer2 (CurPtr L2) = Some c2 ->
  isalpha c2 || Ascii.eqb c2 "_" = true ->
  exists T1 L1' T2 L2',
    Lex Buffer1 NDEBUG L1 = Ok (T1, L1') /\
    Lex Buffer2 NDEBUG L2 = Ok (T2, L2') /\
    (Kind T1 = tok.equal \/ Kind T1 = tok.arrow
     \/ Kind T1 = tok.identifier) /\
    (str Buffer1 (Text T1) <> list_ascii_of_string "=" ->
     str Buffer1 (Text T1) <> list_ascii_of_string "->" ->
     (forall S K, In (S, K) reserved ->
                  str Buffer2 (Text T2) <> list_ascii_of_string S) ->
     Kind T1 = Kind T2 /\ Kind T1 = tok.identifier).
Proof.
  intros Hc1 Hp1 Hcomment Hc2 Hstart. apply (dispatch_classes c2) in Hstart.
  destruct (Lex_at_punctuator Buffer1 NDEBUG L1 c1 Hc1 Hp1 Hcomment)
    as (q1 & K1 & Hrun1 & _ & _ & _ & HK1).
  destruct (Lex_at_identifier Buffer2 NDEBUG L2 c2 Hc2 Hstart)
    as (q2 & K2 & Hrun2 & _ & _ & _ & HK2).
  do 4 eexists. split; [exact Hrun1|]. split; [exact Hrun2|].
  cbn [Kind Text].
  change (str Buffer1 (mkStringRef (CurPtr L1) (q1 - CurPtr L1)))
    with (span Buffer1 (CurPtr L1) q1).
  change (str Buffer2 (mkStringRef (CurPtr L2) (q2 - CurPtr L2)))
    with (span Buffer2 (CurPtr L2) q2).
  subst K1 K2. cbv zeta. split.
  - split_matches; tauto.
  - intros Hne1 Hne2 Hnone.
    assert (Hn : forall S K, In (S, K) reserved ->
                 matches (span Buffer2 (CurPtr L2) q2) S = false).
    { intros S K Hin. destruct (matches _ S) eqn:E; [|reflexivity].
      apply matches_true in E. now contradiction (Hnone S K Hin). }
    rewrite (Hn "__builtin_int32_type"%string tok.kw___builtin_int32_type),
      (Hn "oneof"%string tok.kw_oneof), (Hn "struct"%string tok.kw_struct),
      (Hn "var"%string tok.kw_var), (Hn "func"%string tok.kw_func),
      (Hn "typealias"%string tok.kw_typealias)
      by (cbn [reserved In]; tauto).
    split_matches; try contradiction; split; reflexivity.
Qed.

Lemma operator_runs_share_identifier_kind_witness :
  exists T1 L1' T2 L2',
    Lex (buf "==") false Lexer_new = Ok (T1, L1') /\
    Lex (buf "abc") false Lexer_new = Ok (T2, L2') /\
    Kind T1 = Kind T2.
Proof.
  destruct (operator_runs_share_identifier_kind (buf "==") (buf "abc") false
              Lexer_new Lexer_new "=" "a"
              eq_refl eq_refl ltac:(discriminate) eq_refl eq_refl)
    as (T1 & L1' & T2 & L2' & Hrun1 & Hrun2 & _ & Hsame).
  exists T1, L1', T2, L2'. split; [exact Hrun1|]. split; [exact Hrun2|].
  vm_compute in Hrun1, Hrun2.
  injection Hrun1 as <- _. injection Hrun2 as <- _.
  apply Hsame; [vm_compute; discriminate|vm_compute; discriminate|].
  intros S K Hin. cbn [reserved In] in Hin.
  repeat (destruct Hin as [Hin|Hin]; [injection Hin as <- <-|]);
    try contradiction; vm_compute; discriminate.
Defined.

(** * Further properties of the lexer *)

Ltac same_outcome := repeat first [reflexivity | lia | progress f_equal].

(** ** The scanners the dispatch calls *)

(** X1: at a decimal digit [Lex] returns a [numeric_constant] whose text is
    the longest run of digits from there; it stops in front of the first
    character that is no digit, whatever that is, and reports nothing. *)
Theorem Lex_numeric_constant
  (Buffer : list ascii) (NDEBUG : bool) (L : Lexer) (c : ascii) :
  peek Buffer (CurPtr L) = Some c ->
  isdigit c = true ->
  exists q,
    Lex Buffer NDEBUG L
    = Ok (mkToken tok.numeric_constant (mkStringRef (CurPtr L) (q - CurPtr L)),
          mkLexer q (Diags L)) /\
    CurPtr L < q <= getBufferEnd Buffer /\
    Forall (fun c => isdigit c = true) (span Buffer (CurPtr L) q) /\
    (exists c', peek Buffer q = Some c' /\ isdigit c' = false).
Proof.
  intros Hc Hdig. pose proof Hdig as Hd. apply (dispatch_classes c) in Hd.
  rewrite (Lex_at Buffer NDEBUG L c Hc). unfold Lex_switch. rewrite Hd.
  assert (Hlt : 0 <= CurPtr L < getBufferEnd Buffer).
  { apply (peek_not_nul_lt _ _ _ Hc). intros ->. discriminate Hd. }
  set (L1 := mkLexer (CurPtr L + 1) (Diags L)).
  destruct (LexDigit_spec Buffer NDEBUG L1 c)
    as (q & Hrun & Hq & Hall & Hstop);
    [subst L1; range
    |subst L1; cbn [CurPtr];
     now replace (CurPtr L + 1 - 1) with (CurPtr L) by lia
    |exact Hd|].
  cbn [CurPtr Diags L1] in *.
  replace (CurPtr L + 1 - 1) with (CurPtr L) in * by lia.
  exists q. split; [exact Hrun|]. split; [lia|]. split; [|exact Hstop].
  rewrite (span_cons _ _ _ _ Hc) by lia. now constructor.
Qed.

Lemma Lex_numeric_constant_witness :
  exists q,
    Lex (buf "123abc") false Lexer_new
    = Ok (mkToken tok.numeric_constant (mkStringRef 0 (q - 0)), mkLexer q [])
    /\ peek (buf "123abc") q = Some "a"%char.
Proof.
  destruct (Lex_numeric_constant (buf "123abc") false Lexer_new "1"
              eq_refl eq_refl) as (q & Hrun & _ & _ & _).
  exists q. split; [exact Hrun|].
  vm_compute in Hrun. injection Hrun as _ Hq. subst q. reflexivity.
Defined.

(** X2: at a dollar sign [Lex] returns a [dollarident] that spans the
    dollar and the longest run of letters, digits, underscores and dollars
    behind it; the kind does not depend on the text, so a reserved word
    behind the dollar stays part of a [dollarident]. *)
Theorem Lex_dollarident
  (Buffer : list ascii) (NDEBUG : bool) (L : Lexer) :
  peek Buffer (CurPtr L) = Some "$"%char ->
  exists q,
    Lex Buffer NDEBUG L
    = Ok (mkToken tok.dollarident (mkStringRef (CurPtr L) (q - CurPtr L)),
          mkLexer q (Diags L)) /\
    CurPtr L < q <= getBufferEnd Buffer /\
    Forall (fun c => isIdentBody c = true) (span Buffer (CurPtr L + 1) q) /\
    (exists c', peek Buffer q = Some c' /\ isIdentBody c' = false).
Proof.
  intros Hc.
  rewrite (Lex_at Buffer NDEBUG L _ Hc). unfold Lex_switch.
  change (dispatch "$") with CaseDollar.
  assert (Hlt : 0 <= CurPtr L < getBufferEnd Buffer)
    by (apply (peek_not_nul_lt _ _ _ Hc); discriminate).
  set (L1 := mkLexer (CurPtr L + 1) (Diags L)).
  destruct (LexDollarIdent_spec Buffer NDEBUG L1)
    as (q & Hrun & Hq & Hall & Hstop);
    [subst L1; range
    |subst L1; cbn [CurPtr];
     now replace (CurPtr L + 1 - 1) with (CurPtr L) by lia|].
  cbn [CurPtr Diags L1] in *.
  replace (CurPtr L + 1 - 1) with (CurPtr L) in * by lia.
  exists q. split; [exact Hrun|]. split; [lia|]. auto.
Qed.

Lemma Lex_dollarident_witness :
  exists q,
    Lex (buf "$func+") false Lexer_new
    = Ok (mkToken tok.dollarident (mkStringRef 0 (q - 0)), mkLexer q [])
    /\ peek (buf "$func+") q = Some "+"%char.
Proof.
  destruct (Lex_dollarident (buf "$func+") false Lexer_new eq_refl)
    as (q & Hrun & _ & _ & _).
  exists q. split; [exact Hrun|].
  vm_compute in Hrun. injection Hrun as _ Hq. subst q. reflexivity.
Defined.

(** X3: at a colon [Lex] looks one character ahead: a second colon makes
    one [coloncolon] of both, anything else, the end of the buffer
    included, leaves a [colon] of length one.  Neither reports anything. *)
Theorem Lex_colon_lookahead
  (Buffer : list ascii) (NDEBUG : bool) (L : Lexer) :
  peek Buffer (CurPtr L) = Some ":"%char ->
  (peek Buffer (CurPtr L + 1) = Some ":"%char ->
   Lex Buffer NDEBUG L
   = Ok (mkToken tok.coloncolon (mkStringRef (CurPtr L) 2),
         mkLexer (CurPtr L + 2) (Diags L))) /\
  (peek Buffer (CurPtr L + 1) <> Some ":"%char ->
   Lex Buffer NDEBUG L
   = Ok (mkToken tok.colon (mkStringRef (CurPtr L) 1),
         mkLexer (CurPtr L + 1) (Diags L))).
Proof.
  intros Hc.
  rewrite (Lex_at Buffer NDEBUG L _ Hc). unfold Lex_switch.
  change (dispatch ":") with CaseColon.
  assert (Hlt : 0 <= CurPtr L < getBufferEnd Buffer)
    by (apply (peek_not_nul_lt _ _ _ Hc); discriminate).
  destruct (peek_total Buffer (CurPtr L + 1)) as [c1 Hc1]; [lia|].
  mred. rewrite Hc1. split; intros H.
  - injection H as ->. rewrite Ascii.eqb_refl. cbn [negb CurPtr Diags].
    same_outcome.
  - destruct (Ascii.eqb_spec c1 ":") as [->|Hne]; [contradiction|].
    cbn [negb CurPtr Diags]. same_outcome.
Qed.

Lemma Lex_colon_lookahead_witness :
  Lex (buf "::x") false Lexer_new
  = Ok (mkToken tok.coloncolon (mkStringRef 0 2), mkLexer 2 []) /\
  Lex (buf ":") false Lexer_new
  = Ok (mkToken tok.colon (mkStringRef 0 1), mkLexer 1 []).
Proof.
  split.
  - exact (proj1 (Lex_colon_lookahead (buf "::x") false Lexer_new eq_refl)
                 eq_refl).
  - exact (proj2 (Lex_colon_lookahead (buf ":") false Lexer_new eq_refl)
                 ltac:(discriminate)).
Defined.

(** X4: each of the nine characters [( ) { } [ ] . , ;] is a token of its
    own kind and of length one wherever [Lex] meets it; nothing behind it
    is looked at and nothing is reported. *)
Theorem Lex_single_punctuation
  (Buffer : list ascii) (NDEBUG : bool) (L : Lexer)
  (c : ascii) (K : tok.TokenKind) :
  peek Buffer (CurPtr L) = Some c ->
  In (c, K) punctuation ->
  Lex Buffer NDEBUG L
  = Ok (mkToken K (mkStringRef (CurPtr L) 1),
        mkLexer (CurPtr L + 1) (Diags L)).
Proof.
  intros Hc Hin. rewrite (Lex_at Buffer NDEBUG L c Hc). unfold Lex_switch.
  cbn [punctuation In] in Hin.
  repeat (destruct Hin as [Hin|Hin]; [injection Hin as <- <-|]);
    try contradiction;
    match goal with
    | |- context [dispatch ?x] =>
        let d := eval vm_compute in (dispatch x) in change (dispatch x) with d
    end;
    mred; same_outcome.
Qed.

Lemma Lex_single_punctuation_witness :
  Lex (buf "a]") false (mkLexer 1 [])
  = Ok (mkToken tok.r_square (mkStringRef 1 1), mkLexer 2 []).
Proof.
  apply (Lex_single_punctuation (buf "a]") false (mkLexer 1 []) "]").
  - reflexivity.
  - cbn [punctuation In]. tauto.
Defined.

(** ** Diagnostics are only ever appended *)

Lemma frame_frame {A} ds ds' (r : Res (A * Lexer)) :
  frame ds (frame ds' r) = frame (ds ++ ds') r.
Proof.
  destruct r as [[a L']|f]; cbn [frame CurPtr Diags]; [|reflexivity].
  now rewrite app_assoc.
Qed.

Lemma Framed_ret {A} (a : A) : Framed (ret a).
Proof. intros p ds. cbn. now rewrite app_nil_r. Qed.

Lemma Framed_fail {A} f : Framed (@fail A f).
Proof. intros p ds. reflexivity. Qed.

Lemma Framed_getCurPtr : Framed getCurPtr.
Proof. intros p ds. cbn. now rewrite app_nil_r. Qed.

Lemma Framed_setCurPtr q : Framed (setCurPtr q).
Proof. intros p ds. cbn. now rewrite app_nil_r. Qed.

Lemma Framed_PrintMessage sev loc msg : Framed (PrintMessage sev loc msg).
Proof. intros p ds. reflexivity. Qed.

Lemma Framed_load Buffer q : Framed (load Buffer q).
Proof.
  intros p ds. unfold load. destruct (peek Buffer q); cbn; [|reflexivity].
  now rewrite app_nil_r.
Qed.

Lemma Framed_bind {A B} (m : M A) (k : A -> M B) :
  Framed m -> (forall a, Framed (k a)) -> Framed (bind m k).
Proof.
  intros Hm Hk p ds. unfold bind. rewrite (Hm p ds).
  destruct (m (mkLexer p [])) as [[a [q ds']]|f]; cbn [frame CurPtr Diags];
    [|reflexivity].
  rewrite (Hk a q (ds ++ ds')), (Hk a q ds'). now rewrite frame_frame.
Qed.

Lemma Framed_bounded {A} Buffer (loop : nat -> M A) :
  (forall fuel, Framed (loop fuel)) -> Framed (bounded Buffer loop).
Proof. intros H p ds. unfold bounded. apply H. Qed.

Create HintDb framed.
#[local] Hint Resolve Framed_ret Framed_fail Framed_getCurPtr Framed_setCurPtr
  Framed_PrintMessage Framed_load Framed_bounded : framed.

Ltac framed :=
  repeat first
    [ solve [auto with framed]
    | apply Framed_bind; [|intros]
    | match goal with
      | |- Framed (if ?b then _ else _) => destruct b
      | |- Framed (match ?x with _ => _ end) => destruct x
      end
    | progress unfold nextChar, FormToken, Warning, Error, assert,
        StringSwitch_new, Case, Default ].

Lemma Framed_SkipSlashSlashComment_loop Buffer fuel :
  Framed (SkipSlashSlashComment_loop Buffer fuel).
Proof. induction fuel; cbn [SkipSlashSlashComment_loop]; framed. Qed.

Lemma Framed_advanceWhile Buffer test fuel :
  Framed (advanceWhile Buffer test fuel).
Proof. induction fuel; cbn [advanceWhile]; framed. Qed.

Lemma Framed_strspn Buffer accept fuel s :
  Framed (strspn Buffer fuel s accept).
Proof. revert s. induction fuel; intros s; cbn [strspn]; framed. Qed.

Lemma Framed_memeq Buffer S p : Framed (memeq Buffer p S).
Proof. revert p. induction S; intros p; cbn [memeq]; framed. Qed.

#[local] Hint Resolve Framed_SkipSlashSlashComment_loop Framed_advanceWhile
  Framed_strspn Framed_memeq : framed.

Lemma Framed_SkipSlashSlashComment Buffer NDEBUG :
  Framed (SkipSlashSlashComment Buffer NDEBUG).
Proof. unfold SkipSlashSlashComment. framed. Qed.

Lemma Framed_LexIdentifier Buffer NDEBUG : Framed (LexIdentifier Buffer NDEBUG).
Proof. unfold LexIdentifier. framed. Qed.

Lemma Framed_LexPunctuationIdentifier Buffer :
  Framed (LexPunctuationIdentifier Buffer).
Proof. unfold LexPunctuationIdentifier. framed. Qed.

Lemma Framed_LexDollarIdent Buffer NDEBUG :
  Framed (LexDollarIdent Buffer NDEBUG).
Proof. unfold LexDollarIdent. framed. Qed.

Lemma Framed_LexDigit Buffer NDEBUG : Framed (LexDigit Buffer NDEBUG).
Proof. unfold LexDigit. framed. Qed.

#[local] Hint Resolve Framed_SkipSlashSlashComment Framed_LexIdentifier
  Framed_LexPunctuationIdentifier Framed_LexDollarIdent Framed_LexDigit
  : framed.

Lemma Framed_Lex_Restart Buffer NDEBUG fuel :
  Framed (Lex_Restart Buffer NDEBUG fuel).
Proof.
  induction fuel; cbn [Lex_Restart]; [framed|].
  apply Framed_bind; [framed|intros TokStart].
  apply Framed_bind; [framed|intros c].
  unfold Lex_switch. framed.
Qed.

#[local] Hint Resolve Framed_Lex_Restart : framed.

Lemma Framed_Lex Buffer NDEBUG : Framed (Lex Buffer NDEBUG).
Proof. unfold Lex. framed. Qed.

#[local] Hint Resolve Framed_Lex : framed.

Lemma Framed_LexAll Buffer NDEBUG calls : Framed (LexAll Buffer NDEBUG calls).
Proof. induction calls; cbn [LexAll]; framed. Qed.

(** C8: a nul character in front of the true end of the buffer makes the
    scanner report a warning and go on.  In the dispatch loop it is passed
    over: [Lex] behaves as if started just behind it with the warning
    reported, so it returns a token that begins behind the nul, and the
    diagnostics it leaves are the earlier ones, then the warning at the
    address of the nul, then whatever the rest of the call reports.  In
    the comment skipper the loop runs on behind it in the same way, the
    comment is not over, and the skipper leaves the same warning behind
    the earlier diagnostics. *)
Theorem embedded_nul_is_skipped
  (Buffer : list ascii) (NDEBUG : bool) (L : Lexer) :
  peek Buffer (CurPtr L) = Some zero ->
  CurPtr L < getBufferEnd Buffer ->
  Lex Buffer NDEBUG L
  = Lex Buffer NDEBUG
      (mkLexer (CurPtr L + 1)
         (Diags L ++ [mkDiagnostic warning (CurPtr L)
                        "nul character embedded in middle of file"])) /\
  (exists T L' ds,
      Lex Buffer NDEBUG L = Ok (T, L') /\
      CurPtr L < Data (Text T) /\
      Diags L'
      = Diags L
        ++ mkDiagnostic warning (CurPtr L)
             "nul character embedded in middle of file" :: ds) /\
  (forall fuel,
      Lex_Restart Buffer NDEBUG (S fuel) L
      = Lex_Restart Buffer NDEBUG fuel
          (mkLexer (CurPtr L + 1)
             (Diags L ++ [mkDiagnostic warning (CurPtr L)
                            "nul character embedded in middle of file"]))) /\
  (forall fuel,
      SkipSlashSlashComment_loop Buffer (S fuel) L
      = SkipSlashSlashComment_loop Buffer fuel
          (mkLexer (CurPtr L + 1)
             (Diags L ++ [mkDiagnostic warning (CurPtr L)
                            "nul character embedded in middle of file"]))) /\
  (exists L' ds,
      bounded Buffer (SkipSlashSlashComment_loop Buffer) L = Ok (tt, L') /\
      (CurPtr L + 1 < CurPtr L' \/ CurPtr L' = getBufferEnd Buffer) /\
      Diags L'
      = Diags L
        ++ mkDiagnostic warning (CurPtr L)
             "nul character embedded in middle of file" :: ds).
Proof.
  intros Hc Hlt.
  pose proof (peek_Some_range _ _ _ Hc) as Hr0.
  set (w := mkDiagnostic warning (CurPtr L)
              "nul character embedded in middle of file").
  set (L1 := mkLexer (CurPtr L + 1) (Diags L ++ [w])).
  assert (Hr1 : InRange Buffer L1) by (subst L1; range).
  assert (Hstep : forall fuel,
             Lex_Restart Buffer NDEBUG (S fuel) L
             = Lex_Restart Buffer NDEBUG fuel L1).
  { intros fuel. rewrite (Lex_Restart_step Buffer NDEBUG fuel L zero Hc).
    now apply Lex_at_nul. }
  assert (Heq : Lex Buffer NDEBUG L = Lex Buffer NDEBUG L1).
  { rewrite (Lex_eq Buffer NDEBUG L) by range.
    rewrite (Lex_eq Buffer NDEBUG L1 Hr1).
    destruct L as [p ds]. subst L1 w. cbn [CurPtr Diags] in *.
    rewrite (remaining_step Buffer p ds
               (ds ++ [mkDiagnostic warning p
                         "nul character embedded in middle of file"]) Hlt).
    apply Hstep. }
  assert (Hloop : forall fuel,
             SkipSlashSlashComment_loop Buffer (S fuel) L
             = SkipSlashSlashComment_loop Buffer fuel L1).
  { intros fuel. cbn [SkipSlashSlashComment_loop]. mred. rewrite Hc.
    change (isNewline zero) with false.
    change (Ascii.eqb zero zero) with true. cbn [CurPtr Diags].
    replace (CurPtr L + 1 - 1) with (CurPtr L) by lia.
    destruct (Z.eqb_spec (CurPtr L) (getBufferEnd Buffer)); [lia|].
    reflexivity. }
  split; [exact Heq|]. split; [|split; [exact Hstep|split; [exact Hloop|]]].
  - destruct (Lex_spec Buffer NDEBUG L1 Hr1) as (T & L' & Hrun & Hs & _).
    pose proof (Framed_Lex Buffer NDEBUG (CurPtr L + 1) (Diags L ++ [w]))
      as Hf.
    fold L1 in Hf. rewrite Hrun in Hf.
    destruct (Lex Buffer NDEBUG (mkLexer (CurPtr L + 1) []))
      as [[T0 L0]|f]; cbn [frame] in Hf; [|discriminate Hf].
    injection Hf as HT HL.
    exists T, L', (Diags L0). rewrite Heq. split; [exact Hrun|].
    split; [subst L1; cbn [CurPtr] in Hs; lia|].
    rewrite HL. cbn [Diags]. now rewrite <- app_assoc.
  - unfold bounded. destruct L as [p ds]. cbn [CurPtr Diags] in *.
    rewrite (remaining_step Buffer p ds (ds ++ [w]) Hlt).
    rewrite (Hloop _). fold L1.
    destruct (SkipSlashSlashComment_loop_spec Buffer
                (remaining Buffer L1) L1 Hr1)
      as [(q & body & nl & Hq & _ & _ & _ & Hrun)|(_ & Hrun)];
      [unfold remaining; lia| |]; subst L1; cbn [CurPtr Diags] in *.
    + do 2 eexists. split; [exact Hrun|]. cbn [CurPtr Diags].
      split; [left; lia|]. now rewrite <- app_assoc.
    + do 2 eexists. split; [exact Hrun|]. cbn [CurPtr Diags].
      split; [now right|]. now rewrite <- app_assoc.
Qed.

Lemma embedded_nul_is_skipped_witness :
  peek ["a"; zero; "b"]%char 1 = Some zero /\
  1 < getBufferEnd ["a"; zero; "b"]%char /\
  exists T L' ds,
    Lex ["a"; zero; "b"]%char false (mkLexer 1 []) = Ok (T, L') /\
    1 < Data (Text T) /\
    Diags L'
    = [] ++ mkDiagnostic warning 1
              "nul character embedded in middle of file" :: ds.
Proof.
  split; [reflexivity|]. split; [reflexivity|].
  exact (proj1 (proj2 (embedded_nul_is_skipped ["a"; zero; "b"]%char false
                         (mkLexer 1 []) eq_refl eq_refl))).
Defined.

(** X8: the diagnostics reported before a call are neither read nor
    dropped by it: [Lex] started behind any list of earlier diagnostics
    returns the token and leaves the cursor it returns and leaves when
    started behind none, and its own diagnostics come out appended to the
    earlier ones.  The same holds for a whole run of calls. *)
Theorem Lex_diagnostics_write_only
  (Buffer : list ascii) (NDEBUG : bool) (p : Z) (ds : list Diagnostic) :
  Lex Buffer NDEBUG (mkLexer p ds)
  = match Lex Buffer NDEBUG (mkLexer p []) with
    | Ok (T, L') => Ok (T, mkLexer (CurPtr L') (ds ++ Diags L'))
    | Err f => Err f
    end /\
  forall calls,
    LexAll Buffer NDEBUG calls (mkLexer p ds)
    = match LexAll Buffer NDEBUG calls (mkLexer p []) with
      | Ok (Ts, L') => Ok (Ts, mkLexer (CurPtr L') (ds ++ Diags L'))
      | Err f => Err f
      end.
Proof.
  split; [apply Framed_Lex|]. intros calls. apply Framed_LexAll.
Qed.

(** ** The assertions of the scanners hold whenever the dispatch calls them *)

Lemma LexIdentifier_NDEBUG Buffer n n' L c :
  peek Buffer (CurPtr L - 1) = Some c ->
  dispatch c = CaseIdentifier ->
  LexIdentifier Buffer n L = LexIdentifier Buffer n' L.
Proof.
  intros Hc Hd. apply (dispatch_classes c) in Hd.
  unfold LexIdentifier, assert. destruct n, n'; try reflexivity;
    unfold bind, load, ret, getCurPtr; rewrite Hc, Hd; reflexivity.
Qed.

Lemma LexDollarIdent_NDEBUG Buffer n n' L :
  peek Buffer (CurPtr L - 1) = Some "$"%char ->
  LexDollarIdent Buffer n L = LexDollarIdent Buffer n' L.
Proof.
  intros Hc. unfold LexDollarIdent, assert. destruct n, n'; try reflexivity;
    unfold bind, load, ret, getCurPtr; rewrite Hc; reflexivity.
Qed.

Lemma LexDigit_NDEBUG Buffer n n' L c :
  peek Buffer (CurPtr L - 1) = Some c ->
  dispatch c = CaseDigit ->
  LexDigit Buffer n L = LexDigit Buffer n' L.
Proof.
  intros Hc Hd. apply (dispatch_classes c) in Hd.
  unfold LexDigit, assert. destruct n, n'; try reflexivity;
    unfold bind, load, ret, getCurPtr; rewrite Hc, Hd; reflexivity.
Qed.

Lemma dispatch_single c K : dispatch c = CaseSingle K -> In (c, K) punctuation.
Proof.
  destruct c as [[] [] [] [] [] [] [] []]; vm_compute; intros H;
    try discriminate H; injection H as <-; tauto.
Qed.

Lemma first_newline_unique (b1 b2 r1 r2 : list ascii) n1 n2 :
  noNewline b1 -> isNewline n1 = true ->
  noNewline b2 -> isNewline n2 = true ->
  b1 ++ n1 :: r1 = b2 ++ n2 :: r2 ->
  b1 = b2 /\ n1 = n2 /\ r1 = r2.
Proof.
  intros H1 Hn1. revert b2.
  induction H1 as [|x b1 Hx H1 IH]; intros [|y b2] H2 Hn2 E; cbn in E.
  - now injection E as -> ->.
  - injection E as -> _. inversion H2; congruence.
  - injection E as -> _. congruence.
  - injection E as -> E. inversion H2; subst.
    destruct (IH b2) as (-> & -> & ->); auto.
Qed.

Lemma noNewline_no_newline (b r l : list ascii) n :
  isNewline n = true -> noNewline l -> l <> b ++ n :: r.
Proof.
  intros Hn Hl ->. apply Forall_app in Hl. destruct Hl as [_ Hl].
  inversion Hl; congruence.
Qed.

(** ** What one pass through the [switch] does *)

Lemma Trivia_inv l :
  Trivia l ->
  l = []
  \/ (exists c l', l = c :: l' /\ dispatch c = CaseWhitespace /\ Trivia l')
  \/ (exists l', l = zero :: l' /\ Trivia l')
  \/ (exists body nl l',
         l = ("/" :: "/" :: body ++ nl :: l')%char /\
         noNewline body /\ isNewline nl = true /\ Trivia l')
  \/ (exists body, l = ("/" :: "/" :: body)%char /\ noNewline body).
Proof.
  intros H. destruct H as [|c l Hd Hl|l Hl|body nl l Hb Hn Hl|body Hb].
  - now left.
  - right; left. now exists c, l.
  - right; right; left. now exists l.
  - right; right; right; left. now exists body, nl, l.
  - right; right; right; right. now exists body.
Qed.

Lemma nulWarnings_warnings p l : Forall isWarning (nulWarnings p l).
Proof.
  revert p. induction l as [|x l IH]; intros p; cbn [nulWarnings];
    [constructor|].
  apply Forall_app. split; [|apply IH].
  destruct (Ascii.eqb x zero); repeat constructor.
Qed.

Section Dispatch.

Variable Buffer : list ascii.

Local Abbreviation BufferEnd := (getBufferEnd Buffer).
Local Abbreviation peek := (peek Buffer).
Local Abbreviation span := (span Buffer).

Lemma TokenStart_not_Trivia s :
  TokenStart Buffer s -> s < BufferEnd -> ~ Trivia (span s BufferEnd).
Proof.
  intros (c & Hc & Hws & Hnul & Hsl) Hlt Ht.
  pose proof (peek_Some_range _ _ _ Hc) as Hr.
  rewrite (span_cons _ _ _ _ Hc) in Ht by lia.
  assert (Hsl' : c = "/"%char ->
                 forall l, span (s + 1) BufferEnd <> "/"%char :: l).
  { intros Ec l E.
    destruct (Z.eq_dec (s + 1) BufferEnd) as [E'|E'];
      [rewrite span_empty in E by lia; discriminate E|].
    destruct (peek_total Buffer (s + 1)) as [c1 Hc1]; [lia|].
    rewrite (span_cons _ _ _ _ Hc1) in E by lia. injection E as -> _.
    now apply (Hsl Ec). }
  destruct (Trivia_inv _ Ht)
    as [E|[(c' & l & E & Hd & _)|[(l & E & _)
        |[(body & nl & l & E & _)|(body & E & _)]]]];
    try discriminate E; injection E as -> E.
  - contradiction.
  - specialize (Hnul eq_refl). lia.
  - now apply (Hsl' eq_refl) in E.
  - now apply (Hsl' eq_refl) in E.
Qed.

Lemma Lex_switch_cases L c :
  peek (CurPtr L) = Some c ->
  (exists q ws,
      ~ TokenStart Buffer (CurPtr L) /\
      CurPtr L < q <= BufferEnd /\
      Forall isWarning ws /\
      (forall s, q <= s <= BufferEnd ->
                 Trivia (span q s) -> Trivia (span (CurPtr L) s)) /\
      (Trivia (span (CurPtr L) BufferEnd) -> Trivia (span q BufferEnd)) /\
      forall NDEBUG Restart,
        Lex_switch Buffer NDEBUG Restart (CurPtr L) c
          (mkLexer (CurPtr L + 1) (Diags L))
        = Restart (mkLexer q (Diags L ++ ws)))
  \/
  (exists K n,
      TokenStart Buffer (CurPtr L) /\
      0 < n /\
      (K = tok.eof <-> CurPtr L = BufferEnd) /\
      (K = tok.eof -> n = 1) /\
      (K <> tok.eof -> CurPtr L + n <= BufferEnd) /\
      (K = tok.unknown <-> unmatched c = true) /\
      K = kindOfText (span (CurPtr L) (CurPtr L + n)) /\
      forall NDEBUG Restart,
        Lex_switch Buffer NDEBUG Restart (CurPtr L) c
          (mkLexer (CurPtr L + 1) (Diags L))
        = Ok (mkToken K (mkStringRef (CurPtr L) n),
              mkLexer (CurPtr L + n)
                (Diags L
                 ++ if tok.eqb K tok.unknown
                    then [mkDiagnostic error (CurPtr L)
                            "invalid character in source file"]
                    else []))).
Proof.
  intros Hc.
  pose proof (peek_Some_range _ _ _ Hc) as Hr.
  pose proof (dispatch_classes c)
    as (Hident & Hdigit & Hdollar & Hnul & Hslash & Hcolon & Hpunct
        & Hdefault & _ & Hsingle).
  assert (Hlt : c <> zero -> 0 <= CurPtr L < BufferEnd)
    by (apply peek_not_nul_lt; exact Hc).
  set (L1 := mkLexer (CurPtr L + 1) (Diags L)).
  assert (Hc0 : peek (CurPtr L1 - 1) = Some c).
  { subst L1. cbn [CurPtr].
    now replace (CurPtr L + 1 - 1) with (CurPtr L) by lia. }
  (* a token that starts here, is no end-of-input and reports nothing *)
  assert (Htoken : forall K q,
             dispatch c <> CaseWhitespace -> c <> zero ->
             (c = "/"%char -> peek (CurPtr L + 1) <> Some "/"%char) ->
             K <> tok.eof -> K <> tok.unknown -> unmatched c = false ->
             CurPtr L < q <= BufferEnd ->
             K = kindOfText (span (CurPtr L) q) ->
             (forall NDEBUG Restart,
                 Lex_switch Buffer NDEBUG Restart (CurPtr L) c L1
                 = Ok (mkToken K (mkStringRef (CurPtr L) (q - CurPtr L)),
                       mkLexer q (Diags L))) ->
             exists K n,
               TokenStart Buffer (CurPtr L) /\
               0 < n /\
               (K = tok.eof <-> CurPtr L = BufferEnd) /\
               (K = tok.eof -> n = 1) /\
               (K <> tok.eof -> CurPtr L + n <= BufferEnd) /\
               (K = tok.unknown <-> unmatched c = true) /\
               K = kindOfText (span (CurPtr L) (CurPtr L + n)) /\
               forall NDEBUG Restart,
                 Lex_switch Buffer NDEBUG Restart (CurPtr L) c L1
                 = Ok (mkToken K (mkStringRef (CurPtr L) n),
                       mkLexer (CurPtr L + n)
                         (Diags L
                          ++ if tok.eqb K tok.unknown
                             then [mkDiagnostic error (CurPtr L)
                                     "invalid character in source file"]
                             else []))).
  { intros K q Hws Hnz Hsl Hke Hku Hum Hq Hkind Hrun.
    specialize (Hlt Hnz).
    exists K, (q - CurPtr L).
    split; [exists c; repeat split; try assumption; intros; congruence|].
    split; [lia|]. split; [split; intros; [contradiction|lia]|].
    split; [intros; contradiction|]. split; [intros; lia|].
    split; [split; intros; [contradiction|congruence]|].
    split; [now replace (CurPtr L + (q - CurPtr L)) with q by lia|].
    intros NDEBUG Restart. rewrite Hrun.
    replace (tok.eqb K tok.unknown) with false
      by (destruct K; try reflexivity; contradiction).
    rewrite app_nil_r. same_outcome. }
  assert (Hspan : forall q, CurPtr L < q ->
             span (CurPtr L) q = c :: span (CurPtr L + 1) q)
    by (intros; apply span_cons; [exact Hc|lia]).
  destruct (dispatch c) eqn:Hd;
    try (assert (Hnz : c <> zero)
          by (intros ->; vm_compute in Hd; discriminate));
    try (assert (Hum : unmatched c = false)
          by (destruct (unmatched c) eqn:Eu; [|reflexivity];
              destruct Hdefault as [_ Hx]; specialize (Hx eq_refl);
              discriminate Hx)).
  - (* default *)
    right. specialize (Hlt Hnz). exists tok.unknown, 1.
    split.
    { exists c. split; [exact Hc|]. split; [rewrite Hd; discriminate|].
      split; [intros ->; contradiction|].
      intros ->. vm_compute in Hd. discriminate. }
    split; [lia|]. split; [split; intros; [discriminate|lia]|].
    split; [discriminate|]. split; [intros; lia|].
    split; [split; intros; [now apply Hdefault|reflexivity]|].
    split; [unfold kindOfText; rewrite Hspan by lia; now rewrite Hd|].
    intros NDEBUG Restart; unfold Lex_switch; rewrite Hd. subst L1. mred.
    cbn [tok.eqb]. same_outcome.
  - (* whitespace *)
    left. specialize (Hlt Hnz). exists (CurPtr L + 1), [].
    split; [intros (c' & Hc' & Hws & _); congruence|].
    split; [lia|]. split; [constructor|].
    split.
    { intros s Hs Ht. rewrite (span_cons _ _ _ _ Hc) by lia.
      now apply Trivia_space. }
    split.
    { intros Ht. rewrite (span_cons _ _ _ _ Hc) in Ht by lia.
      destruct (Trivia_inv _ Ht)
        as [E|[(c' & l & E & _ & Hl)|[(l & E & _)
            |[(body & nl & l & E & _)|(body & E & _)]]]];
        try discriminate E; injection E; intros; subst;
        try assumption; vm_compute in Hd; discriminate. }
    intros NDEBUG Restart; unfold Lex_switch; rewrite Hd. subst L1. now rewrite app_nil_r.
  - (* nul *)
    assert (c = zero) by (apply Ascii.eqb_eq, Hnul; reflexivity). subst c.
    destruct (Z.eq_dec (CurPtr L) BufferEnd) as [E|E].
    + right. exists tok.eof, 1.
      split.
      { exists zero. split; [exact Hc|]. split; [vm_compute; discriminate|].
        split; [intros _; exact E|discriminate]. }
      split; [lia|]. split; [tauto|]. split; [reflexivity|].
      split; [intros H; now contradiction H|].
      split; [split; discriminate|].
      split; [unfold kindOfText; rewrite Hspan by lia; reflexivity|].
      intros NDEBUG Restart; unfold Lex_switch; rewrite Hd. subst L1. mred.
      replace (CurPtr L + 1 - 1) with (CurPtr L) by lia.
      destruct (Z.eqb_spec (CurPtr L) BufferEnd); [|contradiction].
      cbn [negb CurPtr Diags]. rewrite app_nil_r. same_outcome.
    + left.
      exists (CurPtr L + 1),
        [mkDiagnostic warning (CurPtr L)
           "nul character embedded in middle of file"].
      split.
      { intros (c' & Hc' & _ & Hz & _). rewrite Hc in Hc'.
        injection Hc' as <-. now apply E, Hz. }
      split; [lia|]. split; [repeat constructor|].
      split.
      { intros s Hs Ht. rewrite (span_cons _ _ _ _ Hc) by lia.
        now apply Trivia_nul. }
      split.
      { intros Ht. rewrite (span_cons _ _ _ _ Hc) in Ht by lia.
        destruct (Trivia_inv _ Ht)
          as [E0|[(c' & l & E0 & Hd' & _)|[(l & E0 & Hl)
              |[(body & nl & l & E0 & _)|(body & E0 & _)]]]];
          try discriminate E0; injection E0; intros; subst;
          try assumption; discriminate. }
      intros NDEBUG Restart; unfold Lex_switch; rewrite Hd. subst L1. mred.
      replace (CurPtr L + 1 - 1) with (CurPtr L) by lia.
      destruct (Z.eqb_spec (CurPtr L) BufferEnd); [contradiction|].
      reflexivity.
  - (* single-character punctuation *)
    right. pose proof (dispatch_single _ _ Hd) as Hin.
    assert (K <> tok.eof /\ K <> tok.unknown /\ c <> "/"%char)
      as (Hke & Hku & Hns).
    { cbn [punctuation In] in Hin.
      repeat (destruct Hin as [Hin|Hin]; [injection Hin as <- <-|]);
        try contradiction; repeat split; discriminate. }
    specialize (Hlt Hnz).
    apply (Htoken K (CurPtr L + 1)); try assumption; try discriminate;
      try lia.
    + intros E. contradiction.
    + unfold kindOfText; rewrite Hspan by lia; now rewrite Hd.
    + intros NDEBUG Restart; unfold Lex_switch; rewrite Hd.
      subst L1. mred. same_outcome.
  - (* colon *)
    right. specialize (Hlt Hnz).
    assert (c = ":"%char) by (apply Ascii.eqb_eq, Hcolon; reflexivity).
    subst c.
    destruct (peek_total Buffer (CurPtr L + 1)) as [c1 Hc1]; [lia|].
    destruct (Ascii.eqb_spec c1 ":") as [->|Hne].
    + pose proof (peek_not_nul_lt _ _ _ Hc1 ltac:(discriminate)).
      apply (Htoken tok.coloncolon (CurPtr L + 2)); try assumption;
        try discriminate; try lia.
      { rewrite Hspan, (span_cons _ _ _ _ Hc1), span_empty by lia.
        reflexivity. }
      intros NDEBUG Restart; unfold Lex_switch; rewrite Hd. subst L1. mred. rewrite Hc1.
      rewrite Ascii.eqb_refl. cbn [negb CurPtr Diags]. same_outcome.
    + apply (Htoken tok.colon (CurPtr L + 1)); try assumption;
        try discriminate; try lia.
      { rewrite Hspan, span_empty by lia. reflexivity. }
      intros NDEBUG Restart; unfold Lex_switch; rewrite Hd. subst L1. mred. rewrite Hc1.
      destruct (Ascii.eqb_spec c1 ":"); [contradiction|].
      cbn [negb CurPtr Diags]. same_outcome.
  - (* slash *)
    specialize (Hlt Hnz).
    assert (c = "/"%char) by (apply Ascii.eqb_eq, Hslash; reflexivity).
    subst c.
    destruct (peek_total Buffer (CurPtr L + 1)) as [c1 Hc1]; [lia|].
    assert (Hsw : forall NDEBUG Restart,
               (p <- getCurPtr ;;
                c1 <- load Buffer p ;;
                if Ascii.eqb c1 "/"
                then SkipSlashSlashComment Buffer NDEBUG ;; Restart
                else LexPunctuationIdentifier Buffer) L1
               = (if Ascii.eqb c1 "/"
                  then SkipSlashSlashComment Buffer NDEBUG ;; Restart
                  else LexPunctuationIdentifier Buffer) L1).
    { intros NDEBUG Restart.
      rewrite (bind_Ok getCurPtr _ L1 (CurPtr L + 1) L1) by reflexivity.
      now rewrite (bind_Ok (load Buffer (CurPtr L + 1)) _ L1 c1 L1)
        by (unfold load; now rewrite Hc1). }
    destruct (Ascii.eqb_spec c1 "/") as [->|Hne].
    + left.
      assert (Hr1 : InRange Buffer L1) by (subst L1; range).
      pose proof (peek_not_nul_lt _ _ _ Hc1 ltac:(discriminate)) as Hlt1.
      assert (Hsp : forall s, CurPtr L + 1 <= s ->
                 span (CurPtr L) s = "/"%char :: span (CurPtr L + 1) s).
      { intros s Hs. apply span_cons; [exact Hc|lia]. }
      assert (Hnot : ~ TokenStart Buffer (CurPtr L)).
      { intros (c' & Hc' & _ & _ & Hsl). rewrite Hc in Hc'.
        injection Hc' as <-. now apply (Hsl eq_refl). }
      destruct (SkipSlashSlashComment_loop_spec Buffer
                  (remaining Buffer L1) L1 Hr1)
        as [(q & body & nl & Hq & Hs & Hb & Hn & Hrun)|(Hb & Hrun)];
        [unfold remaining; lia| |]; cbn [CurPtr Diags L1] in *.
      * (* the comment ends in a newline *)
        rewrite (span_cons _ _ _ _ Hc1) in Hs by lia.
        destruct body as [|b body];
          [cbn in Hs; injection Hs as <- _; discriminate Hn|].
        cbn in Hs. injection Hs as <- Hs. inversion Hb; subst.
        exists q, (nulWarnings (CurPtr L + 1) ("/"%char :: body)).
        split; [exact Hnot|]. split; [lia|].
        split.
        { apply nulWarnings_warnings. }
        assert (Hcat : forall s, q <= s <= BufferEnd ->
                   span (CurPtr L) s
                   = "/"%char :: "/"%char :: body ++ nl :: span q s).
        { intros s Hs'. rewrite Hsp by lia.
          rewrite (span_app _ (CurPtr L + 1) q s) by lia.
          rewrite (span_cons _ _ _ _ Hc1) by lia.
          rewrite Hs. cbn [app]. now rewrite <- app_assoc. }
        split.
        { intros s Hs' Ht. rewrite Hcat by lia. now apply Trivia_comment. }
        split.
        { intros Ht. rewrite Hcat in Ht by lia.
          destruct (Trivia_inv _ Ht)
            as [E|[(c' & l & E & Hd' & _)|[(l & E & _)
                |[(body0 & nl0 & l & E & Hb0 & Hn0 & Hl)
                 |(body0 & E & Hb0)]]]];
            try discriminate E; injection E; intros; subst.
          - discriminate Hd'.
          - destruct (first_newline_unique body body0 (span q BufferEnd) l
                        nl nl0) as (_ & _ & ->); auto.
          - now apply (noNewline_no_newline body (span q BufferEnd)
                         (body ++ nl :: span q BufferEnd) nl) in Hb0. }
        intros NDEBUG Restart; unfold Lex_switch; rewrite Hd. rewrite Hsw.
        rewrite (bind_Ok (SkipSlashSlashComment Buffer NDEBUG) _ L1 tt
                   (mkLexer q (Diags L
                               ++ nulWarnings (CurPtr L + 1)
                                    ("/"%char :: body))));
          [reflexivity|].
        rewrite (SkipSlashSlashComment_eq Buffer NDEBUG L1 Hc1 Hc0).
        exact Hrun.
      * (* the comment runs into the end of the buffer *)
        exists BufferEnd,
          (nulWarnings (CurPtr L + 1) (span (CurPtr L + 1) BufferEnd)
           ++ [mkDiagnostic warning (BufferEnd - 1)
                 "no newline at end of // comment"]).
        split; [exact Hnot|]. split; [lia|].
        split.
        { apply Forall_app. split; [apply nulWarnings_warnings|].
          repeat constructor. }
        split.
        { intros s Hs' _. assert (s = BufferEnd) by lia. subst s.
          rewrite Hsp by lia.
          rewrite (span_cons _ _ _ _ Hc1) in * by lia.
          inversion Hb; subst. now apply Trivia_comment_eof. }
        split; [intros _; rewrite span_empty by lia; constructor|].
        intros NDEBUG Restart; unfold Lex_switch; rewrite Hd. rewrite Hsw.
        rewrite (bind_Ok (SkipSlashSlashComment Buffer NDEBUG) _ L1 tt
                   (mkLexer BufferEnd
                      (Diags L
                       ++ nulWarnings (CurPtr L + 1)
                            (span (CurPtr L + 1) BufferEnd)
                       ++ [mkDiagnostic warning (BufferEnd - 1)
                             "no newline at end of // comment"])));
          [reflexivity|].
        rewrite (SkipSlashSlashComment_eq Buffer NDEBUG L1 Hc1 Hc0).
        exact Hrun.
    + right.
      destruct (LexPunctuationIdentifier_spec Buffer L1 "/")
        as (q & K & Hrun & Hq & _ & _ & HK);
        [subst L1; range|exact Hc0|reflexivity|].
      cbn [CurPtr Diags L1] in *.
      replace (CurPtr L + 1 - 1) with (CurPtr L) in * by lia.
      apply (Htoken K q); try assumption; try discriminate; try lia.
      * intros _ E. rewrite Hc1 in E. now injection E.
      * rewrite HK. cbv zeta. split_matches; discriminate.
      * rewrite HK. cbv zeta. split_matches; discriminate.
      * rewrite HK; unfold kindOfText; cbv zeta; rewrite Hspan by lia;
        now rewrite Hd.
      * intros NDEBUG Restart; unfold Lex_switch; rewrite Hd.
        rewrite Hsw. exact Hrun.
  - (* the other punctuator characters *)
    right.
    destruct (LexPunctuationIdentifier_spec Buffer L1 c)
      as (q & K & Hrun & Hq & _ & _ & HK);
      [subst L1; specialize (Hlt Hnz); range|exact Hc0
      |apply Hpunct; now right|].
    cbn [CurPtr Diags L1] in *.
    replace (CurPtr L + 1 - 1) with (CurPtr L) in * by lia.
    apply (Htoken K q); try assumption; try discriminate; try lia.
    + intros ->. vm_compute in Hd. discriminate.
    + rewrite HK. cbv zeta. split_matches; discriminate.
    + rewrite HK. cbv zeta. split_matches; discriminate.
    + rewrite HK; unfold kindOfText; cbv zeta; rewrite Hspan by lia;
        now rewrite Hd.
    + intros NDEBUG Restart; unfold Lex_switch; rewrite Hd. exact Hrun.
  - (* identifier *)
    right.
    assert (Hsame : forall NDEBUG,
               LexIdentifier Buffer NDEBUG L1 = LexIdentifier Buffer true L1)
      by (intros; apply (LexIdentifier_NDEBUG _ _ _ _ c Hc0 Hd)).
    destruct (LexIdentifier_spec Buffer true L1 c)
      as (q & K & Hrun & Hq & _ & _ & HK);
      [subst L1; specialize (Hlt Hnz); range|exact Hc0|exact Hd|].
    cbn [CurPtr Diags L1] in *.
    replace (CurPtr L + 1 - 1) with (CurPtr L) in * by lia.
    apply (Htoken K q); try assumption; try discriminate; try lia.
    + intros ->. vm_compute in Hd. discriminate.
    + rewrite HK. cbv zeta. split_matches; discriminate.
    + rewrite HK. cbv zeta. split_matches; discriminate.
    + rewrite HK; unfold kindOfText; cbv zeta; rewrite Hspan by lia;
        now rewrite Hd.
    + intros NDEBUG Restart; unfold Lex_switch; rewrite Hd.
      now rewrite Hsame.
  - (* dollar *)
    right.
    assert (c = "$"%char) by (apply Ascii.eqb_eq, Hdollar; reflexivity).
    subst c.
    assert (Hsame : forall NDEBUG,
               LexDollarIdent Buffer NDEBUG L1 = LexDollarIdent Buffer true L1)
      by (intros; apply (LexDollarIdent_NDEBUG _ _ _ _ Hc0)).
    destruct (LexDollarIdent_spec Buffer true L1)
      as (q & Hrun & Hq & _);
      [subst L1; specialize (Hlt Hnz); range|exact Hc0|].
    cbn [CurPtr Diags L1] in *.
    replace (CurPtr L + 1 - 1) with (CurPtr L) in * by lia.
    apply (Htoken tok.dollarident q); try assumption; try discriminate;
      try lia.
    { unfold kindOfText; rewrite Hspan by lia; now rewrite Hd. }
    intros NDEBUG Restart; unfold Lex_switch; rewrite Hd.
    now rewrite Hsame.
  - (* digit *)
    right.
    assert (Hsame : forall NDEBUG,
               LexDigit Buffer NDEBUG L1 = LexDigit Buffer true L1)
      by (intros; apply (LexDigit_NDEBUG _ _ _ _ c Hc0 Hd)).
    destruct (LexDigit_spec Buffer true L1 c)
      as (q & Hrun & Hq & _);
      [subst L1; specialize (Hlt Hnz); range|exact Hc0|exact Hd|].
    cbn [CurPtr Diags L1] in *.
    replace (CurPtr L + 1 - 1) with (CurPtr L) in * by lia.
    apply (Htoken tok.numeric_constant q); try assumption;
      try discriminate; try lia.
    + intros ->. vm_compute in Hd. discriminate.
    + unfold kindOfText; rewrite Hspan by lia; now rewrite Hd.
    + intros NDEBUG Restart; unfold Lex_switch; rewrite Hd.
      now rewrite Hsame.
Qed.

End Dispatch.

(** ** The restart loop: fuel, assertions, and what is skipped *)

Lemma Lex_Restart_agree Buffer f1 :
  forall f2 n1 n2 L,
    InRange Buffer L ->
    (Z.to_nat (getBufferEnd Buffer - CurPtr L) < f1)%nat ->
    (Z.to_nat (getBufferEnd Buffer - CurPtr L) < f2)%nat ->
    Lex_Restart Buffer n1 f1 L = Lex_Restart Buffer n2 f2 L.
Proof.
  induction f1 as [|f1 IH]; intros [|f2] n1 n2 L Hr H1 H2; try lia.
  destruct (peek_total Buffer (CurPtr L)) as [c Hc]; [range|].
  rewrite (Lex_Restart_step Buffer n1 f1 L c Hc).
  rewrite (Lex_Restart_step Buffer n2 f2 L c Hc).
  destruct (Lex_switch_cases Buffer L c Hc)
    as [(q & ws & _ & Hq & _ & _ & _ & Hrun)
       |(K & n & _ & _ & _ & _ & _ & _ & _ & Hrun)].
  - rewrite !Hrun. apply IH; [range|cbn [CurPtr]; lia|cbn [CurPtr]; lia].
  - now rewrite !Hrun.
Qed.

Lemma Lex_Restart_Lex Buffer NDEBUG fuel L :
  InRange Buffer L ->
  (Z.to_nat (getBufferEnd Buffer - CurPtr L) < fuel)%nat ->
  Lex_Restart Buffer NDEBUG fuel L = Lex Buffer NDEBUG L.
Proof.
  intros Hr Hf. rewrite (Lex_eq Buffer NDEBUG L Hr).
  apply Lex_Restart_agree; [exact Hr|exact Hf|unfold remaining; lia].
Qed.

Lemma Lex_decompose Buffer NDEBUG fuel :
  forall L,
    InRange Buffer L ->
    (Z.to_nat (getBufferEnd Buffer - CurPtr L) < fuel)%nat ->
    exists s ws,
      CurPtr L <= s <= getBufferEnd Buffer /\
      TokenStart Buffer s /\
      Trivia (span Buffer (CurPtr L) s) /\
      Forall isWarning ws /\
      (Trivia (span Buffer (CurPtr L) (getBufferEnd Buffer)) ->
       s = getBufferEnd Buffer) /\
      Lex_Restart Buffer NDEBUG fuel L
      = Lex Buffer NDEBUG (mkLexer s (Diags L ++ ws)).
Proof.
  induction fuel as [|fuel IH]; intros L Hr Hf; [lia|].
  destruct (peek_total Buffer (CurPtr L)) as [c Hc]; [range|].
  destruct (Lex_switch_cases Buffer L c Hc)
    as [(q & ws & _ & Hq & Hws & Hfwd & Hbwd & Hrun)
       |(K & n & Hstart & _)].
  - rewrite (Lex_Restart_step Buffer NDEBUG fuel L c Hc), Hrun.
    destruct (IH (mkLexer q (Diags L ++ ws)))
      as (s & ws' & Hs & Hst & Htr & Hws' & Hend & Heq);
      [range|cbn [CurPtr]; lia|].
    cbn [CurPtr Diags] in *.
    exists s, (ws ++ ws'). split; [lia|]. split; [exact Hst|].
    split; [apply Hfwd; [lia|exact Htr]|].
    split; [apply Forall_app; now split|].
    split; [intros Ht; apply Hend, Hbwd, Ht|].
    now rewrite app_assoc.
  - exists (CurPtr L), []. split; [range|]. split; [exact Hstart|].
    split; [rewrite span_empty by lia; constructor|].
    split; [constructor|].
    split.
    { intros Ht. destruct (Z.eq_dec (CurPtr L) (getBufferEnd Buffer)) as [E|E];
        [exact E|].
      exfalso. apply (TokenStart_not_Trivia Buffer (CurPtr L) Hstart);
        [range|exact Ht]. }
    rewrite app_nil_r. destruct L as [p ds]. cbn [CurPtr Diags] in *.
    now apply Lex_Restart_Lex.
Qed.

(** At the start of a token one pass through the [switch] is all of [Lex]. *)
Lemma Lex_at_TokenStart Buffer NDEBUG s ds :
  TokenStart Buffer s ->
  exists K n,
    0 < n /\
    (K = tok.eof <-> s = getBufferEnd Buffer) /\
    (K = tok.eof -> n = 1) /\
    (K <> tok.eof -> s + n <= getBufferEnd Buffer) /\
    (K = tok.unknown
     <-> exists c, peek Buffer s = Some c /\ unmatched c = true) /\
    K = kindOfText (str Buffer (mkStringRef s n)) /\
    Lex Buffer NDEBUG (mkLexer s ds)
    = Ok (mkToken K (mkStringRef s n),
          mkLexer (s + n)
            (ds ++ if tok.eqb K tok.unknown
                   then [mkDiagnostic error s
                           "invalid character in source file"]
                   else [])).
Proof.
  intros Hstart. pose proof Hstart as (c & Hc & _).
  destruct (Lex_switch_cases Buffer (mkLexer s ds) c Hc)
    as [(q & ws & Hnot & _)
       |(K & n & _ & Hn & He & He1 & Hne & Hu & Hk & Hrun)];
    [contradiction|].
  cbn [CurPtr Diags] in *.
  exists K, n. split; [exact Hn|]. split; [exact He|]. split; [exact He1|].
  split; [exact Hne|]. split; [|split].
  - rewrite Hu. split; [intros H; now exists c|].
    intros (c' & Hc' & Hu'). congruence.
  - now rewrite str_span.
  - rewrite (Lex_at Buffer NDEBUG (mkLexer s ds) c Hc). apply Hrun.
Qed.

Lemma Lex_outcome Buffer NDEBUG L :
  InRange Buffer L ->
  exists s ws K n,
    CurPtr L <= s <= getBufferEnd Buffer /\
    Trivia (span Buffer (CurPtr L) s) /\
    TokenStart Buffer s /\
    Forall isWarning ws /\
    0 < n /\
    (K = tok.eof <-> s = getBufferEnd Buffer) /\
    (K <> tok.eof -> s + n <= getBufferEnd Buffer) /\
    (K = tok.unknown
     <-> exists c, peek Buffer s = Some c /\ unmatched c = true) /\
    K = kindOfText (str Buffer (mkStringRef s n)) /\
    (Trivia (span Buffer (CurPtr L) (getBufferEnd Buffer)) ->
     s = getBufferEnd Buffer) /\
    Lex Buffer NDEBUG L = Lex Buffer NDEBUG (mkLexer s (Diags L ++ ws)) /\
    Lex Buffer NDEBUG L
    = Ok (mkToken K (mkStringRef s n),
          mkLexer (s + n)
            (Diags L ++ ws
             ++ if tok.eqb K tok.unknown
                then [mkDiagnostic error s "invalid character in source file"]
                else [])).
Proof.
  intros Hr.
  destruct (Lex_decompose Buffer NDEBUG (remaining Buffer L) L Hr)
    as (s & ws & Hs & Hst & Htr & Hws & Hend & Heq);
    [unfold remaining; lia|].
  rewrite <- (Lex_eq Buffer NDEBUG L Hr) in Heq.
  destruct (Lex_at_TokenStart Buffer NDEBUG s (Diags L ++ ws) Hst)
    as (K & n & Hn & He & _ & Hne & Hu & Hk & Hrun).
  exists s, ws, K, n. repeat (split; [assumption|]).
  rewrite Heq, Hrun. now rewrite <- app_assoc.
Qed.

(** X5: a space, tab, newline or carriage return under the cursor is
    passed over without a token and without a diagnostic: [Lex] does
    what it does when started on the next character. *)
Theorem Lex_skips_whitespace
  (Buffer : list ascii) (NDEBUG : bool) (L : Lexer) (c : ascii) :
  peek Buffer (CurPtr L) = Some c ->
  In c [" "; "009"; "010"; "013"]%char ->
  Lex Buffer NDEBUG L
  = Lex Buffer NDEBUG (mkLexer (CurPtr L + 1) (Diags L)).
Proof.
  intros Hc Hin.
  assert (Hd : dispatch c = CaseWhitespace).
  { cbn [In] in Hin.
    repeat (destruct Hin as [<-|Hin]; [reflexivity|]). contradiction. }
  assert (Hlt : 0 <= CurPtr L < getBufferEnd Buffer).
  { apply (peek_not_nul_lt _ _ _ Hc). intros ->. discriminate Hd. }
  rewrite (Lex_at Buffer NDEBUG L c Hc). unfold Lex_switch. rewrite Hd.
  apply Lex_Restart_Lex; [range|cbn [CurPtr]; lia].
Qed.

Lemma Lex_skips_whitespace_witness :
  Lex (buf " x") false Lexer_new = Lex (buf " x") false (mkLexer 1 []).
Proof.
  apply (Lex_skips_whitespace (buf " x") false Lexer_new " ").
  - reflexivity.
  - cbn [In]. tauto.
Defined.

(** X6: two slashes under the cursor never give a token.  The comment
    skipper, entered on the second slash, succeeds and leaves the cursor
    further on, at most on the terminating nul, and [Lex] does what it does
    when started in the state the skipper leaves. *)
Theorem Lex_skips_comment
  (Buffer : list ascii) (NDEBUG : bool) (L : Lexer) :
  peek Buffer (CurPtr L) = Some "/"%char ->
  peek Buffer (CurPtr L + 1) = Some "/"%char ->
  exists L2,
    SkipSlashSlashComment Buffer NDEBUG (mkLexer (CurPtr L + 1) (Diags L))
    = Ok (tt, L2) /\
    CurPtr L + 1 < CurPtr L2 <= getBufferEnd Buffer /\
    Lex Buffer NDEBUG L = Lex Buffer NDEBUG L2.
Proof.
  intros Hc Hc1.
  pose proof (peek_not_nul_lt _ _ _ Hc ltac:(discriminate)) as Hlt.
  pose proof (peek_not_nul_lt _ _ _ Hc1 ltac:(discriminate)) as Hlt1.
  set (L1 := mkLexer (CurPtr L + 1) (Diags L)).
  assert (Hc0 : peek Buffer (CurPtr L1 - 1) = Some "/"%char).
  { subst L1. cbn [CurPtr].
    now replace (CurPtr L + 1 - 1) with (CurPtr L) by lia. }
  assert (Hskip : exists L2,
             SkipSlashSlashComment Buffer NDEBUG L1 = Ok (tt, L2) /\
             CurPtr L + 1 < CurPtr L2 <= getBufferEnd Buffer).
  { rewrite (SkipSlashSlashComment_eq Buffer NDEBUG L1 Hc1 Hc0).
    destruct (SkipSlashSlashComment_loop_spec Buffer
                (remaining Buffer L1) L1)
      as [(q & body & nl & Hq & _ & _ & _ & Hrun)|(_ & Hrun)];
      [subst L1; range|unfold remaining; lia| |];
      eexists; (split; [exact Hrun|]); subst L1; cbn [CurPtr] in *; lia. }
  destruct Hskip as (L2 & Hrun & Hq). exists L2.
  split; [exact Hrun|]. split; [exact Hq|].
  rewrite (Lex_at Buffer NDEBUG L _ Hc). unfold Lex_switch.
  change (dispatch "/") with CaseSlash. cbv beta iota. fold L1.
  rewrite (bind_Ok getCurPtr _ L1 (CurPtr L + 1) L1) by reflexivity.
  rewrite (bind_Ok (load Buffer (CurPtr L + 1)) _ L1 "/"%char L1)
    by (unfold load; now rewrite Hc1).
  rewrite Ascii.eqb_refl, (bind_Ok _ _ _ _ _ Hrun).
  apply Lex_Restart_Lex; [range|lia].
Qed.

Lemma Lex_skips_comment_witness :
  exists L2,
    SkipSlashSlashComment (buf "//x") false (mkLexer 1 []) = Ok (tt, L2) /\
    Lex (buf "//x") false Lexer_new = Lex (buf "//x") false L2.
Proof.
  destruct (Lex_skips_comment (buf "//x") false Lexer_new eq_refl eq_refl)
    as (L2 & Hrun & _ & Heq).
  exists L2. split; [exact Hrun|exact Heq].
Defined.

(** X7: no assertion of the lexer ever fails on a path that starts in a
    state [Lex] accepts: with assertions compiled in and with assertions
    compiled out a call returns the same token, cursor and diagnostics,
    and so does a run of calls up to the end-of-input token. *)
Theorem Lex_same_with_and_without_assertions
  (Buffer : list ascii) (L : Lexer) :
  InRange Buffer L ->
  Lex Buffer true L = Lex Buffer false L /\
  forall calls, LexAll Buffer true calls L = LexAll Buffer false calls L.
Proof.
  assert (Hlex : forall L, InRange Buffer L ->
                           Lex Buffer true L = Lex Buffer false L).
  { intros L0 Hr. rewrite !Lex_eq by exact Hr.
    apply Lex_Restart_agree; [exact Hr|unfold remaining; lia..]. }
  intros Hr. split; [now apply Hlex|].
  intros calls. revert L Hr.
  induction calls as [|calls IH]; intros L Hr; [reflexivity|].
  cbn [LexAll]. unfold bind. rewrite (Hlex L Hr).
  destruct (Lex_spec Buffer false L Hr)
    as (T & L1 & Hrun & Hs & _ & Hcur & _ & Hne).
  rewrite Hrun.
  destruct (tok.eqb (Kind T) tok.eof) eqn:Ek; [reflexivity|].
  assert (Hk : Kind T <> tok.eof)
    by (intros E; rewrite E in Ek; discriminate).
  specialize (Hne Hk). rewrite (IH L1) by range. reflexivity.
Qed.

Lemma Lex_same_with_and_without_assertions_witness :
  Lex (buf "$a 1") true (mkLexer 3 []) = Lex (buf "$a 1") false (mkLexer 3 []).
Proof.
  apply (Lex_same_with_and_without_assertions (buf "$a 1") (mkLexer 3 [])).
  vm_compute. split; discriminate.
Defined.

(** ** What every call returns and reports *)

(** X9: every call of [Lex] from a state it accepts is a skip followed by
    one scan.  It passes over trivia up to the start [s] of a token,
    reporting warnings only, and returns a non-empty token that begins
    at [s]; started at [s] itself it returns the same.  It reports an
    error exactly when the token is [unknown], which is exactly when the
    character at [s] is one the dispatch does not name; the error is a
    single one, the last diagnostic of the call, and located at [s]. *)
Theorem Lex_skips_then_scans
  (Buffer : list ascii) (NDEBUG : bool) (L : Lexer) :
  InRange Buffer L ->
  exists s ws K n,
    CurPtr L <= s <= getBufferEnd Buffer /\
    Trivia (span Buffer (CurPtr L) s) /\
    TokenStart Buffer s /\
    Forall isWarning ws /\
    0 < n /\
    (K = tok.unknown
     <-> exists c, peek Buffer s = Some c /\ unmatched c = true) /\
    Lex Buffer NDEBUG L
    = Ok (mkToken K (mkStringRef s n),
          mkLexer (s + n)
            (Diags L ++ ws
             ++ if tok.eqb K tok.unknown
                then [mkDiagnostic error s "invalid character in source file"]
                else [])) /\
    Lex Buffer NDEBUG (mkLexer s (Diags L ++ ws)) = Lex Buffer NDEBUG L.
Proof.
  intros Hr.
  destruct (Lex_outcome Buffer NDEBUG L Hr)
    as (s & ws & K & n & Hs & Htr & Hst & Hws & Hn & _ & _ & Hu & _ & _
        & Heq & Hrun).
  exists s, ws, K, n. repeat (split; [assumption|]). now symmetry.
Qed.

Lemma Lex_skips_then_scans_witness :
  exists s ws K n,
    Lex (buf " // c") false Lexer_new
    = Ok (mkToken K (mkStringRef s n),
          mkLexer (s + n)
            (Diags Lexer_new ++ ws
             ++ if tok.eqb K tok.unknown
                then [mkDiagnostic error s "invalid character in source file"]
                else [])) /\
    Forall isWarning ws.
Proof.
  destruct (Lex_skips_then_scans (buf " // c") false Lexer_new
              (Lexer_new_InRange _))
    as (s & ws & K & n & _ & _ & _ & Hws & _ & _ & Hrun & _).
  exists s, ws, K, n. split; [exact Hrun|exact Hws].
Defined.

(** X10: [Lex] returns the end-of-input token exactly when nothing but
    whitespace, nul characters and [//] comments is left between the
    cursor and the end of the buffer. *)
Theorem Lex_eof_iff_only_trivia_left
  (Buffer : list ascii) (NDEBUG : bool) (L : Lexer) :
  InRange Buffer L ->
  exists T L',
    Lex Buffer NDEBUG L = Ok (T, L') /\
    (Kind T = tok.eof
     <-> Trivia (span Buffer (CurPtr L) (getBufferEnd Buffer))).
Proof.
  intros Hr.
  destruct (Lex_outcome Buffer NDEBUG L Hr)
    as (s & ws & K & n & _ & Htr & _ & _ & _ & He & _ & _ & _ & Hend & _
        & Hrun).
  do 2 eexists. split; [exact Hrun|]. cbn [Kind]. rewrite He. split.
  - intros <-. exact Htr.
  - exact Hend.
Qed.

Lemma Lex_eof_iff_only_trivia_left_witness :
  exists T L',
    Lex (buf " //x") false Lexer_new = Ok (T, L') /\
    (Kind T = tok.eof
     <-> Trivia (span (buf " //x") 0 (getBufferEnd (buf " //x")))).
Proof.
  exact (Lex_eof_iff_only_trivia_left (buf " //x") false Lexer_new
           (Lexer_new_InRange _)).
Defined.

Lemma filter_warnings ws : Forall isWarning ws -> filter isError ws = [].
Proof.
  induction 1 as [|d ws Hd _ IH]; [reflexivity|].
  cbn [filter]. unfold isError. unfold isWarning in Hd. now rewrite Hd.
Qed.

(** X11: whenever a run of calls comes back, the tokens it returns lie in
    the buffer one behind the other: each is non-empty, begins at or
    behind the end of the one before and ends in front of the terminating
    nul.  The run ends in exactly one end-of-input token, whose text is
    the terminating nul itself, and leaves the cursor one past that nul. *)
Theorem LexAll_tokens_in_order
  (Buffer : list ascii) (NDEBUG : bool) (calls : nat) (L : Lexer)
  (Ts : list Token) (L' : Lexer) :
  InRange Buffer L ->
  LexAll Buffer NDEBUG calls L = Ok (Ts, L') ->
  exists Ts0 E,
    Ts = Ts0 ++ [E] /\
    E = mkToken tok.eof (mkStringRef (getBufferEnd Buffer) 1) /\
    Forall (fun T => Kind T <> tok.eof) Ts0 /\
    InOrder Buffer (CurPtr L) Ts0 /\
    CurPtr L' = getBufferEnd Buffer + 1.
Proof.
  revert L Ts L'. induction calls as [|calls IH]; intros L Ts L' Hr Hall;
    [discriminate Hall|].
  cbn [LexAll] in Hall.
  destruct (Lex_spec Buffer NDEBUG L Hr)
    as (T & L1 & Hrun & Hs & _ & Hcur & He & Hne).
  rewrite (bind_Ok _ _ _ _ _ Hrun) in Hall.
  destruct (tok.eqb (Kind T) tok.eof) eqn:Ek.
  - apply tok_eqb_eq in Ek. destruct (He Ek) as (HsE & HnE).
    injection Hall as <- <-. exists [], T.
    split; [reflexivity|].
    split; [destruct T as [K [d n]]; cbn in *; congruence|].
    split; [constructor|]. split; [exact I|lia].
  - assert (Hk : Kind T <> tok.eof)
      by (intros E; rewrite E in Ek; discriminate).
    destruct (Hne Hk) as (HsN & Hn0 & HeN).
    unfold bind, ret in Hall.
    destruct (LexAll Buffer NDEBUG calls L1) as [[Ts1 L2]|f] eqn:Hrest;
      [|discriminate Hall].
    injection Hall as <- <-.
    destruct (IH L1 Ts1 L2) as (Ts0 & E & -> & HE & Hnon & Hord & Hend);
      [range|exact Hrest|].
    exists (T :: Ts0), E. split; [reflexivity|]. split; [exact HE|].
    split; [now constructor|]. split; [|exact Hend].
    cbn [InOrder]. rewrite Hcur in Hord. auto.
Qed.

Lemma LexAll_tokens_in_order_witness :
  exists Ts0 E,
    [mkToken tok.identifier (mkStringRef 0 1);
     mkToken tok.colon (mkStringRef 2 1);
     mkToken tok.eof (mkStringRef 3 1)] = Ts0 ++ [E] /\
    InOrder (buf "a :") 0 Ts0.
Proof.
  destruct (LexAll_tokens_in_order (buf "a :") false 3 Lexer_new
              [mkToken tok.identifier (mkStringRef 0 1);
               mkToken tok.colon (mkStringRef 2 1);
               mkToken tok.eof (mkStringRef 3 1)]
              (mkLexer 4 []) (Lexer_new_InRange _) eq_refl)
    as (Ts0 & E & HTs & _ & _ & Hord & _).
  exists Ts0, E. split; [exact HTs|exact Hord].
Defined.

(** X12: over a run of calls, the errors reported are, in order, one
    "invalid character in source file" per [unknown] token, located at the
    start of that token; every other diagnostic is a warning. *)
Theorem LexAll_errors_are_unknown_tokens
  (Buffer : list ascii) (NDEBUG : bool) (calls : nat) (L : Lexer)
  (Ts : list Token) (L' : Lexer) :
  InRange Buffer L ->
  LexAll Buffer NDEBUG calls L = Ok (Ts, L') ->
  filter isError (Diags L')
  = filter isError (Diags L)
    ++ map (fun T => mkDiagnostic error (Data (Text T))
                       "invalid character in source file")
           (filter (fun T => tok.eqb (Kind T) tok.unknown) Ts).
Proof.
  revert L Ts L'. induction calls as [|calls IH]; intros L Ts L' Hr Hall;
    [discriminate Hall|].
  cbn [LexAll] in Hall.
  destruct (Lex_outcome Buffer NDEBUG L Hr)
    as (s & ws & K & n & Hs & _ & _ & Hws & Hn & He & Hne & _ & _ & _ & _
        & Hrun).
  rewrite (bind_Ok _ _ _ _ _ Hrun) in Hall. cbn [Kind] in Hall.
  assert (Hd : filter isError
                 (Diags L ++ ws
                  ++ (if tok.eqb K tok.unknown
                      then [mkDiagnostic error s
                              "invalid character in source file"]
                      else []))
               = filter isError (Diags L)
                 ++ (if tok.eqb K tok.unknown
                     then [mkDiagnostic error s
                             "invalid character in source file"]
                     else [])).
  { rewrite !filter_app, (filter_warnings ws Hws).
    destruct (tok.eqb K tok.unknown); reflexivity. }
  destruct (tok.eqb K tok.eof) eqn:Ek.
  - injection Hall as <- <-. cbn [Diags filter map Kind Text Data].
    rewrite Hd. apply tok_eqb_eq in Ek. subst K. reflexivity.
  - assert (Hk : K <> tok.eof) by (intros E; rewrite E in Ek; discriminate).
    specialize (Hne Hk). unfold bind, ret in Hall.
    destruct (LexAll Buffer NDEBUG calls _) as [[Ts1 L2]|f] eqn:Hrest;
      [|discriminate Hall].
    injection Hall as <- <-.
    apply IH in Hrest; [|range]. rewrite Hrest. cbn [Diags]. rewrite Hd.
    cbn [filter Kind]. destruct (tok.eqb K tok.unknown);
      cbn [map Text Data app]; now rewrite <- app_assoc.
Qed.

Lemma LexAll_errors_are_unknown_tokens_witness :
  filter isError
    [mkDiagnostic error 0 "invalid character in source file";
     mkDiagnostic warning 3 "no newline at end of // comment"]
  = filter isError (Diags Lexer_new)
    ++ map (fun T => mkDiagnostic error (Data (Text T))
                       "invalid character in source file")
           (filter (fun T => tok.eqb (Kind T) tok.unknown)
              [mkToken tok.unknown (mkStringRef 0 1);
               mkToken tok.eof (mkStringRef 4 1)]).
Proof.
  exact (LexAll_errors_are_unknown_tokens (buf "@ //") false 2 Lexer_new
           [mkToken tok.unknown (mkStringRef 0 1);
            mkToken tok.eof (mkStringRef 4 1)]
           (mkLexer 5
              [mkDiagnostic error 0 "invalid character in source file";
               mkDiagnostic warning 3 "no newline at end of // comment"])
           (Lexer_new_InRange _) eq_refl).
Defined.

(** X13: the kind of a token is a function of its text alone: it is what
    [kindOfText] reads off the text, so two calls of [Lex], on any two
    buffers and at any two places, that return tokens with the same text
    return tokens of the same kind. *)
Theorem token_kind_is_a_function_of_its_text
  (Buffer1 Buffer2 : list ascii) (NDEBUG1 NDEBUG2 : bool) (L1 L2 : Lexer) :
  InRange Buffer1 L1 ->
  InRange Buffer2 L2 ->
  exists T1 L1' T2 L2',
    Lex Buffer1 NDEBUG1 L1 = Ok (T1, L1') /\
    Lex Buffer2 NDEBUG2 L2 = Ok (T2, L2') /\
    Kind T1 = kindOfText (str Buffer1 (Text T1)) /\
    Kind T2 = kindOfText (str Buffer2 (Text T2)) /\
    (str Buffer1 (Text T1) = str Buffer2 (Text T2) -> Kind T1 = Kind T2).
Proof.
  intros Hr1 Hr2.
  destruct (Lex_outcome Buffer1 NDEBUG1 L1 Hr1)
    as (s1 & ws1 & K1 & n1 & _ & _ & _ & _ & _ & _ & _ & _ & Hk1 & _ & _
        & Hrun1).
  destruct (Lex_outcome Buffer2 NDEBUG2 L2 Hr2)
    as (s2 & ws2 & K2 & n2 & _ & _ & _ & _ & _ & _ & _ & _ & Hk2 & _ & _
        & Hrun2).
  do 4 eexists. split; [exact Hrun1|]. split; [exact Hrun2|].
  cbn [Kind Text]. split; [exact Hk1|]. split; [exact Hk2|].
  intros E. now rewrite Hk1, Hk2, E.
Qed.

Lemma token_kind_is_a_function_of_its_text_witness :
  exists T1 L1' T2 L2',
    Lex (buf "x = 1") false (mkLexer 1 []) = Ok (T1, L1') /\
    Lex (buf "=") true Lexer_new = Ok (T2, L2') /\
    Kind T1 = Kind T2.
Proof.
  destruct (token_kind_is_a_function_of_its_text (buf "x = 1") (buf "=")
              false true (mkLexer 1 []) Lexer_new)
    as (T1 & L1' & T2 & L2' & Hrun1 & Hrun2 & _ & _ & Hsame).
  - vm_compute. split; discriminate.
  - apply Lexer_new_InRange.
  - exists T1, L1', T2, L2'. split; [exact Hrun1|]. split; [exact Hrun2|].
    apply Hsame. vm_compute in Hrun1, Hrun2.
    injection Hrun1 as <- _. injection Hrun2 as <- _. reflexivity.
Defined.
